(** * Procurement workflow: quantity reconciliation and chain validation

    A shallow embedding of the validation, linking and quantity-control
    hooks of [next_custom_app]:

    - [utils/procurement_workflow.py]  (module [Workflow])
    - [utils/po_quantity_control.py]   (module [PoControl])
    - [doctype/rfq_supplier_rule/rfq_supplier_rule.py] (module [SupplierRule])

    The host platform (the document database) is modelled as a list of
    documents, in table order.  Quantities are carried as integers: the
    whole-number quantities of counted items, on which the sums and
    differences the source computes on its Float fields are exact.  A
    statement about a total follows the source's own accumulation, a running
    total from 0 in the order the lines are visited, and a bound is stated
    with the source's own subtraction and comparison.
    A raised [frappe.throw] is a [Reject] carrying the data the source
    formats into its message. *)

From Stdlib Require Import ZArith Lia Sorted.
From stdpp Require Import base numbers strings gmap list sorting.

Local Open Scope string_scope.
Local Open Scope list_scope.
Local Open Scope Z_scope.

(** ** The host document store *)

Module Host.

(** A row of a child table of line items.  [ordered_qty] and
    [remaining_qty] are the custom fields of "Request for Quotation Item";
    an unset numeric field is [None]. *)
Record Item := mkItem {
  item_code : string;
  qty : option Z;
  ordered_qty : option Z;
  remaining_qty : option Z;
}.

(** A row of the "Procurement Document Link" child table. *)
Record Link := mkLink {
  source_doctype : string;
  source_docname : string;
  target_doctype : string;
  target_docname : string;
  link_date : Z;
}.

Record Document := mkDoc {
  doctype : string;
  name : string;
  docstatus : Z;                      (* 0 draft, 1 submitted, 2 cancelled *)
  islocal : bool;                     (* doc.is_new() *)
  procurement_source_doctype : option string;
  procurement_source_name : option string;
  supplier : option string;
  items : list Item;
  suppliers : list string;            (* the supplier of each RFQ supplier row *)
  procurement_links : list Link;
}.

#[global] Instance Item_eq_dec : EqDecision Item.
Proof. solve_decision. Defined.
#[global] Instance Link_eq_dec : EqDecision Link.
Proof. solve_decision. Defined.
#[global] Instance Document_eq_dec : EqDecision Document.
Proof. solve_decision. Defined.

Definition Store := list Document.

(** Python truthiness of an optional string field: [None] and the empty
    string are false. *)
Definition truthy (o : option string) : bool :=
  match o with
  | Some s => negb (bool_decide (s = ""))
  | None => false
  end.

(** [frappe.utils.flt] and the idiom [x or 0] on a numeric field: an unset
    field reads as 0. *)
Definition flt (o : option Z) : Z := default 0 o.

Definition has_key (dt n : string) (d : Document) : Prop :=
  doctype d = dt ∧ name d = n.

#[global] Instance has_key_dec dt n d : Decision (has_key dt n d).
Proof. unfold has_key. apply _. Defined.

(** [frappe.get_doc(doctype, name)]; [None] stands for
    [frappe.DoesNotExistError]. *)
Definition get_doc (st : Store) (dt n : string) : option Document :=
  List.find (λ d, bool_decide (has_key dt n d)) st.

(** The (doctype, name) pair is the primary key of a stored document. *)
Definition key (d : Document) : string * string := (doctype d, name d).

Definition store_wf (st : Store) : Prop := NoDup (key <$> st).

(** [doc.save()] of an existing document: the stored row is replaced. *)
Definition save (st : Store) (d : Document) : Store :=
  (λ x, if bool_decide (has_key (doctype d) (name d) x) then d else x) <$> st.

(** The filter shared by every [frappe.get_all] over children of a source:
    [procurement_source_doctype], [procurement_source_name] and
    [docstatus != 2]. *)
Definition child_of (target_dt src_dt src_name : string) (d : Document) : Prop :=
  doctype d = target_dt
  ∧ procurement_source_doctype d = Some src_dt
  ∧ procurement_source_name d = Some src_name
  ∧ docstatus d ≠ 2.

#[global] Instance child_of_dec t s n d : Decision (child_of t s n d).
Proof. unfold child_of. apply _. Defined.

Definition get_all_children (st : Store) (target_dt src_dt src_name : string)
  : list string :=
  name <$> filter (child_of target_dt src_dt src_name) st.

End Host.

Export Host.

(** ** Results of a hook *)

Inductive Error :=
| BothOrNeither
| InvalidSource (expected actual : string)
| InvalidItem (code : string)
| QuantityExceeded (code : string)
    (source_qty consumed_qty available_qty target_qty : Z)
    (documents : list (string * Z))
| ItemNotInSource (code : string) (source_name : string)
| SupplierNotInRfq (sup : string) (allowed : list string)
| DoesNotExist (dt n : string)
| CancellationNotAllowed (count : nat) (docs_by_type : list (string * list string))
| RfqLimitExceeded (code : string)
    (rfq_total_qty actual_consumed available_qty po_qty : Z)
| SupplierMismatch (expected actual : option string).

Inductive result :=
| Pass
| Reject (e : Error).

#[global] Instance Error_eq_dec : EqDecision Error.
Proof. solve_decision. Defined.
#[global] Instance result_eq_dec : EqDecision result.
Proof. solve_decision. Defined.

(** Sequencing of two checks: the second runs only when the first returns. *)
Definition and_then (r : result) (k : result) : result :=
  match r with
  | Pass => k
  | Reject e => Reject e
  end.

(** The first line item failing a check stops the loop. *)
Fixpoint for_each {A} (check : A → result) (l : list A) : result :=
  match l with
  | [] => Pass
  | x :: l' => and_then (check x) (for_each check l')
  end.

(** ** Stable sorting, as Python's [sorted] and SQL's [ORDER BY] *)

Section Sorting.
Context {A : Type} (le : A → A → bool).

(** [x] goes in front of the first element it is not greater than, so
    that equal keys keep their original order. *)
Fixpoint insert_sorted (x : A) (l : list A) : list A :=
  match l with
  | [] => [x]
  | y :: l' => if le x y then x :: y :: l' else y :: insert_sorted x l'
  end.

Definition sorted_by (l : list A) : list A := foldr insert_sorted [] l.
End Sorting.

(** ** utils/procurement_workflow.py *)

Module Workflow.

Definition PROCUREMENT_DOCTYPES : list string :=
  [ "Material Request"; "Purchase Requisition"; "Request for Quotation";
    "Supplier Quotation"; "Purchase Order"; "Purchase Receipt";
    "Purchase Invoice" ].

(** A row of the flow-steps child table of a "Procurement Flow". *)
Record FlowStep := mkStep {
  step_no : Z;
  doctype_name : string;
  requires_source : bool;
}.

Record Flow := mkFlow {
  flow_name : string;
  is_active : bool;
  flow_steps : list FlowStep;
}.

(** [frappe.db.get_value("Procurement Flow", {"is_active": 1}, ...)]: the
    first active flow of the table, if any. *)
Definition get_active_flow (flows : list Flow) : option Flow :=
  List.find is_active flows.

Definition get_flow_steps (flow : Flow) : list FlowStep :=
  sorted_by (λ x y, bool_decide (step_no x ≤ step_no y)) (flow_steps flow).

Definition get_current_step (dt : string) (flow : Flow) : option FlowStep :=
  List.find (λ s, bool_decide (doctype_name s = dt)) (get_flow_steps flow).

(** The loop [for i, step in enumerate(steps)] of [get_previous_step],
    resumed at index [i] with [rest] still to visit. *)
Fixpoint previous_step_from (dt : string) (steps : list FlowStep)
    (i : nat) (rest : list FlowStep) : option FlowStep :=
  match rest with
  | [] => None
  | step :: rest' =>
      if bool_decide (doctype_name step = dt) && bool_decide (0 < i)%nat
      then steps !! (i - 1)%nat
      else previous_step_from dt steps (S i) rest'
  end.

Definition get_previous_step (dt : string) (flow : Flow) : option FlowStep :=
  let steps := get_flow_steps flow in
  previous_step_from dt steps 0%nat steps.

Definition validate_step_order (flows : list Flow) (doc : Document) : result :=
  match get_active_flow flows with
  | None => Pass
  | Some active_flow =>
    match get_current_step (doctype doc) active_flow with
    | None => Pass
    | Some current_step =>
      let has_source_doctype := truthy (procurement_source_doctype doc) in
      let has_source_name := truthy (procurement_source_name doc) in
      if requires_source current_step then
        if negb has_source_doctype && negb has_source_name then Pass
        else if negb (eqb has_source_doctype has_source_name)
        then Reject BothOrNeither
        else
          match get_previous_step (doctype doc) active_flow with
          | Some previous_step =>
              if bool_decide (procurement_source_doctype doc
                              ≠ Some (doctype_name previous_step))
              then Reject (InvalidSource (doctype_name previous_step)
                             (default "" (procurement_source_doctype doc)))
              else Pass
          | None => Pass
          end
      else Pass
    end
  end.

Definition get_items_field_name (dt : string) : option string :=
  if bool_decide (dt ∈ PROCUREMENT_DOCTYPES) then Some "items" else None.

(** The value stored per item code by [get_consumed_quantities_detailed]:
    the ["total"] and the ["documents"] breakdown. *)
Definition Consumed := (Z * list (string * Z))%type.

Definition add_consumed (doc_name : string)
    (consumed : gmap string Consumed) (item : Item) : gmap string Consumed :=
  let entry := default (0, []) (consumed !! item_code item) in
  <[item_code item :=
      (entry.1 + flt (qty item), entry.2 ++ [(doc_name, flt (qty item))])]>
    consumed.

Definition excluded (exclude_doc : option string) (doc_name : string) : bool :=
  truthy exclude_doc && bool_decide (exclude_doc = Some doc_name).

Definition add_child (st : Store) (target_doctype : string)
    (exclude_doc : option string)
    (consumed : gmap string Consumed) (doc_name : string)
  : gmap string Consumed :=
  if excluded exclude_doc doc_name then consumed
  else
    match get_doc st target_doctype doc_name with
    | Some target_doc => foldl (add_consumed doc_name) consumed (items target_doc)
    | None => consumed
    end.

Definition get_consumed_quantities_detailed (st : Store)
    (source_doctype source_name target_doctype : string)
    (exclude_doc : option string) : gmap string Consumed :=
  match get_items_field_name target_doctype with
  | None => ∅
  | Some _ =>
      foldl (add_child st target_doctype exclude_doc) ∅
        (get_all_children st target_doctype source_doctype source_name)
  end.

Definition validate_supplier_in_rfq (st : Store) (doc : Document) : result :=
  match supplier doc with
  | Some sup =>
      if negb (truthy (supplier doc)) then Pass
      else
        match get_doc st "Request for Quotation"
                (default "" (procurement_source_name doc)) with
        | Some rfq =>
            if bool_decide (sup ∈ suppliers rfq) then Pass
            else Reject (SupplierNotInRfq sup (suppliers rfq))
        | None => Pass
        end
  | None => Pass
  end.

(** The document and the (doctype, name) pair quantities are tracked
    against: the source itself, or for a Purchase Order made from a Supplier
    Quotation the Request for Quotation behind that quotation.  [None] is
    [frappe.DoesNotExistError]. *)
Definition tracking_source (st : Store) (doc source_doc : Document)
  : option (Document * string * string) :=
  let same := Some (source_doc,
                    default "" (procurement_source_doctype doc),
                    default "" (procurement_source_name doc)) in
  if bool_decide (doctype doc = "Purchase Order")
     && bool_decide (procurement_source_doctype doc = Some "Supplier Quotation")
  then
    if bool_decide (procurement_source_doctype source_doc
                    = Some "Request for Quotation")
       && truthy (procurement_source_name source_doc)
    then
      let tracking_source_name :=
        default "" (procurement_source_name source_doc) in
      match get_doc st "Request for Quotation" tracking_source_name with
      | Some rfq => Some (rfq, "Request for Quotation", tracking_source_name)
      | None => None
      end
    else same
  else same.

(** The body of the loop over the target items. *)
Definition check_item (source_items : list Item)
    (consumed_breakdown : gmap string Consumed) (target_item : Item) : result :=
  let code := item_code target_item in
  let target_qty := flt (qty target_item) in
  match List.find (λ si, bool_decide (item_code si = code)) source_items with
  | None => Reject (InvalidItem code)
  | Some source_item =>
      let source_qty := flt (qty source_item) in
      let item_breakdown := default (0, []) (consumed_breakdown !! code) in
      let consumed_qty := item_breakdown.1 in
      let available_qty := source_qty - consumed_qty in
      if bool_decide (target_qty > available_qty)
      then Reject (QuantityExceeded code source_qty consumed_qty
                     available_qty target_qty item_breakdown.2)
      else Pass
  end.

Definition validate_quantity_limits (st : Store) (doc : Document) : result :=
  if negb (truthy (procurement_source_doctype doc))
     || negb (truthy (procurement_source_name doc)) then Pass
  else if bool_decide (doctype doc = "Request for Quotation") then Pass
  else
    and_then
      (if bool_decide (doctype doc = "Supplier Quotation")
          && bool_decide (procurement_source_doctype doc
                          = Some "Request for Quotation")
       then validate_supplier_in_rfq st doc else Pass)
      (let sdt := default "" (procurement_source_doctype doc) in
       let sname := default "" (procurement_source_name doc) in
       match get_doc st sdt sname with
       | None => Reject (DoesNotExist sdt sname)
       | Some source_doc =>
         match tracking_source st doc source_doc with
         | None =>
             Reject (DoesNotExist "Request for Quotation"
                       (default "" (procurement_source_name source_doc)))
         | Some (source_doc, tracking_source_doctype, tracking_source_name) =>
           match get_items_field_name sdt, get_items_field_name (doctype doc) with
           | Some _, Some _ =>
               let exclude_current :=
                 if negb (islocal doc) then Some (name doc) else None in
               let consumed_breakdown :=
                 get_consumed_quantities_detailed st tracking_source_doctype
                   tracking_source_name (doctype doc) exclude_current in
               for_each (check_item (items source_doc) consumed_breakdown)
                 (items doc)
           | _, _ => Pass
           end
         end
       end).

Definition validate_items_against_source (st : Store) (doc : Document) : result :=
  if negb (truthy (procurement_source_doctype doc))
     || negb (truthy (procurement_source_name doc)) then Pass
  else
    let sdt := default "" (procurement_source_doctype doc) in
    let sname := default "" (procurement_source_name doc) in
    match get_doc st sdt sname with
    | None => Reject (DoesNotExist sdt sname)
    | Some source_doc =>
      match get_items_field_name sdt, get_items_field_name (doctype doc) with
      | Some _, Some _ =>
          let source_item_codes := item_code <$> items source_doc in
          for_each
            (λ target_item,
               if bool_decide (item_code target_item ∈ source_item_codes)
               then Pass
               else Reject (ItemNotInSource (item_code target_item) sname))
            (items doc)
      | _, _ => Pass
      end
    end.

Definition validate_procurement_document (flows : list Flow) (st : Store)
    (doc : Document) : result :=
  and_then (validate_step_order flows doc)
    (and_then (validate_quantity_limits st doc)
       (validate_items_against_source st doc)).

End Workflow.

(** ** Loops whose exit depends on the stored data *)

(** One iteration of a [while] loop either continues with a new loop state
    or leaves the loop with a value; [run_loop] runs at most [fuel]
    iterations and is [None] when the loop has not left by then. *)
Fixpoint run_loop {S R : Type} (step : S → S + R) (fuel : nat) (s : S)
  : option R :=
  match fuel with
  | O => None
  | Datatypes.S fuel' =>
      match step s with
      | inl s' => run_loop step fuel' s'
      | inr r => Some r
      end
  end.

(** ** Link graph: utils/procurement_workflow.py, continued *)

Module Links.

(** A Python dict of lists in insertion order: [d.setdefault(k, []).append(v)]. *)
Fixpoint dict_append (k v : string) (d : list (string * list string))
  : list (string * list string) :=
  match d with
  | [] => [(k, [v])]
  | (k', vs) :: d' =>
      if bool_decide (k' = k) then (k', vs ++ [v]) :: d'
      else (k', vs) :: dict_append k v d'
  end.

Definition dict_get (k : string) (d : list (string * list string))
  : option (list string) :=
  snd <$> List.find (λ e, bool_decide (e.1 = k)) d.

Definition link_to (target_dt target_name : string) (link : Link) : Prop :=
  target_doctype link = target_dt ∧ target_docname link = target_name.

#[global] Instance link_to_dec t n l : Decision (link_to t n l).
Proof. unfold link_to. apply _. Defined.

Definition append_link (d : Document) (link : Link) : Document :=
  mkDoc (doctype d) (name d) (docstatus d) (islocal d)
    (procurement_source_doctype d) (procurement_source_name d) (supplier d)
    (items d) (suppliers d) (procurement_links d ++ [link]).

(** [has_field dt] is [meta.has_field("procurement_links")] of doctype [dt];
    [now] is the timestamp of the call.  Every exception is logged and
    swallowed, which leaves the store as it was. *)
Definition create_backward_link (has_field : string → bool) (now : Z)
    (st : Store) (source_dt source_nm target_dt target_nm : string) : Store :=
  match get_doc st source_dt source_nm with
  | None => st
  | Some source_doc =>
      if negb (has_field source_dt) then st
      else
        let existing_links := procurement_links source_doc in
        if bool_decide (Exists (link_to target_dt target_nm) existing_links)
        then st
        else
          save st (append_link source_doc
                     (mkLink source_dt source_nm target_dt target_nm now))
  end.

Definition on_procurement_submit (has_field : string → bool) (now : Z)
    (st : Store) (doc : Document) : Store :=
  if truthy (procurement_source_doctype doc)
     && truthy (procurement_source_name doc)
  then create_backward_link has_field now st
         (default "" (procurement_source_doctype doc))
         (default "" (procurement_source_name doc))
         (doctype doc) (name doc)
  else st.

Definition group_links (forward_links : list Link)
  : list (string * list string) :=
  foldl (λ docs_by_type link,
           dict_append (target_doctype link) (target_docname link) docs_by_type)
    [] forward_links.

Definition check_can_cancel (doc : Document) : result :=
  let forward_links := procurement_links doc in
  match forward_links with
  | [] => Pass
  | _ :: _ =>
      Reject (CancellationNotAllowed (length forward_links)
                (group_links forward_links))
  end.

(** The number of edges of [d] to a target. *)
Definition count_links (target_dt target_nm : string) (d : Document) : nat :=
  length (filter (link_to target_dt target_nm) (procurement_links d)).

(** The names the links of doctype [dt] carry, in order. *)
Definition names_of (dt : string) (links : list Link) : list string :=
  target_docname <$> filter (λ l, target_doctype l = dt) links.

Definition max_iterations : nat := 20.

Definition doc_key (dt n : string) : string := dt +:+ "::" +:+ n.

(** Loop state of [find_root_document]: [current_dt], [current_name],
    [iterations]. *)
Definition find_root_step (st : Store) (s : string * string * nat)
  : (string * string * nat) + (string * string) :=
  let '(current_dt, current_name, iterations) := s in
  if bool_decide (iterations < max_iterations)%nat then
    match get_doc st current_dt current_name with
    | Some doc =>
        if truthy (procurement_source_doctype doc)
           && truthy (procurement_source_name doc)
        then inl (default "" (procurement_source_doctype doc),
                  default "" (procurement_source_name doc),
                  Datatypes.S iterations)
        else inr (current_dt, current_name)
    | None => inr (current_dt, current_name)
    end
  else inr (current_dt, current_name).

Definition find_root_document (st : Store) (fuel : nat) (dt n : string)
  : option (string * string) :=
  run_loop (find_root_step st) fuel (dt, n, O).

(** Loop state of [get_path_to_document]: [path], [current_dt],
    [current_name], [iterations]. *)
Definition path_step (st : Store) (s : list string * string * string * nat)
  : (list string * string * string * nat) + list string :=
  let '(path, current_dt, current_name, iterations) := s in
  if bool_decide (iterations < max_iterations)%nat then
    let path := doc_key current_dt current_name :: path in
    match get_doc st current_dt current_name with
    | Some doc =>
        if truthy (procurement_source_doctype doc)
           && truthy (procurement_source_name doc)
        then inl (path,
                  default "" (procurement_source_doctype doc),
                  default "" (procurement_source_name doc),
                  Datatypes.S iterations)
        else inr path
    | None => inr path
    end
  else inr path.

Definition get_path_to_document (st : Store) (fuel : nat) (dt n : string)
  : option (gset string) :=
  list_to_set <$> run_loop (path_step st) fuel ([], dt, n, O).

(** Loop state of the backward walk of [get_linked_documents_with_counts]:
    [backward_chain], [current_doctype], [current_name].  The loop test is
    [while current_doctype and current_name]. *)
Definition backward_chain_step (st : Store)
    (s : list (string * string) * option string * option string)
  : (list (string * string) * option string * option string)
    + list (string * string) :=
  let '(backward_chain, current_doctype, current_name) := s in
  if truthy current_doctype && truthy current_name then
    let dt := default "" current_doctype in
    let n := default "" current_name in
    let backward_chain := backward_chain ++ [(dt, n)] in
    match get_doc st dt n with
    | Some parent_doc =>
        inl (backward_chain,
             procurement_source_doctype parent_doc,
             procurement_source_name parent_doc)
    | None => inr backward_chain
    end
  else inr backward_chain.

(** The backward part of [get_linked_documents_with_counts], up to the
    grouping by doctype. *)
Definition backward_chain_of (st : Store) (fuel : nat) (dt n : string)
  : option (list (string * string)) :=
  match get_doc st dt n with
  | None => Some []
  | Some doc =>
      if truthy (procurement_source_doctype doc)
         && truthy (procurement_source_name doc)
      then run_loop (backward_chain_step st) fuel
             ([], procurement_source_doctype doc, procurement_source_name doc)
      else Some []
  end.

End Links.

(** ** utils/po_quantity_control.py *)

Module PoControl.

Definition find_item (code : string) (l : list Item) : option Item :=
  List.find (λ i, bool_decide (item_code i = code)) l.

(** [frappe.get_doc] on an optional name; an unset name finds nothing. *)
Definition get_doc_opt (st : Store) (dt : string) (n : option string)
  : option Document :=
  match n with
  | Some n => get_doc st dt n
  | None => None
  end.

Definition submitted_sq_of (rfq_name : string) (d : Document) : Prop :=
  doctype d = "Supplier Quotation"
  ∧ procurement_source_doctype d = Some "Request for Quotation"
  ∧ procurement_source_name d = Some rfq_name
  ∧ docstatus d = 1.

#[global] Instance submitted_sq_of_dec r d : Decision (submitted_sq_of r d).
Proof. unfold submitted_sq_of. apply _. Defined.

Definition po_of_sqs (sqs : list string) (d : Document) : Prop :=
  doctype d = "Purchase Order"
  ∧ procurement_source_doctype d = Some "Supplier Quotation"
  ∧ default "" (procurement_source_name d) ∈ sqs
  ∧ is_Some (procurement_source_name d)
  ∧ docstatus d ≠ 2.

#[global] Instance po_of_sqs_dec s d : Decision (po_of_sqs s d).
Proof. unfold po_of_sqs. apply _. Defined.

Definition add_ordered (ordered_qtys : gmap string Z) (item : Item)
  : gmap string Z :=
  <[item_code item :=
      default 0 (ordered_qtys !! item_code item) + flt (qty item)]>
    ordered_qtys.

(** The loop over [pos]; a Purchase Order that cannot be loaded raises, and
    the handler returns what has been summed so far. *)
Fixpoint sum_pos (st : Store) (ordered_qtys : gmap string Z)
    (pos : list string) : gmap string Z :=
  match pos with
  | [] => ordered_qtys
  | po :: pos' =>
      match get_doc st "Purchase Order" po with
      | Some po_doc =>
          sum_pos st (foldl add_ordered ordered_qtys (items po_doc)) pos'
      | None => ordered_qtys
      end
  end.

Definition calculate_rfq_ordered_quantities_dynamic (st : Store)
    (rfq_name : string) : gmap string Z :=
  let sqs := name <$> filter (submitted_sq_of rfq_name) st in
  match sqs with
  | [] => ∅
  | _ :: _ =>
      let pos := name <$> filter (po_of_sqs sqs) st in
      sum_pos st ∅ pos
  end.

(** The quantity of the stored version of [doc] for [code], counted only
    when [doc] is not new. *)
Definition existing_po_qty (st : Store) (doc : Document) (code : string) : Z :=
  if negb (islocal doc) then
    match get_doc st "Purchase Order" (name doc) with
    | Some original_po =>
        match find_item code (items original_po) with
        | Some original_item => flt (qty original_item)
        | None => 0
        end
    | None => 0
    end
  else 0.

(** The body of the loop over the items of the Purchase Order. *)
Definition check_po_item (st : Store) (doc rfq : Document) (po_item : Item)
  : result :=
  match find_item (item_code po_item) (items rfq) with
  | None => Pass
  | Some rfq_item =>
      let current_ordered_qty := flt (ordered_qty rfq_item) in
      let rfq_total_qty := flt (qty rfq_item) in
      let po_qty := flt (qty po_item) in
      let available_qty :=
        rfq_total_qty - current_ordered_qty
        + existing_po_qty st doc (item_code po_item) in
      if bool_decide (po_qty > available_qty) then
        let all_pos_qty := calculate_rfq_ordered_quantities_dynamic st (name rfq) in
        let actual_consumed := default 0 (all_pos_qty !! item_code po_item) in
        Reject (RfqLimitExceeded (item_code po_item) rfq_total_qty
                  actual_consumed available_qty po_qty)
      else Pass
  end.

Definition validate_po_against_rfq (st : Store) (doc : Document) : result :=
  if bool_decide (doctype doc ≠ "Purchase Order") then Pass
  else if bool_decide (procurement_source_doctype doc
                       ≠ Some "Supplier Quotation") then Pass
  else if negb (truthy (procurement_source_name doc)) then Pass
  else
    match get_doc_opt st "Supplier Quotation" (procurement_source_name doc) with
    | None => Pass
    | Some sq =>
        if bool_decide (procurement_source_doctype sq
                        ≠ Some "Request for Quotation")
           || negb (truthy (procurement_source_name sq)) then Pass
        else
          match get_doc_opt st "Request for Quotation"
                  (procurement_source_name sq) with
          | None => Pass
          | Some rfq => for_each (check_po_item st doc rfq) (items doc)
          end
    end.

Definition set_supplier (d : Document) (s : option string) : Document :=
  mkDoc (doctype d) (name d) (docstatus d) (islocal d)
    (procurement_source_doctype d) (procurement_source_name d) s
    (items d) (suppliers d) (procurement_links d).

(** Returns the document as the hook leaves it (the supplier may have been
    filled in) and the outcome. *)
Definition validate_supplier_matches_sq (st : Store) (doc : Document)
  : Document * result :=
  if bool_decide (doctype doc ≠ "Purchase Order") then (doc, Pass)
  else if bool_decide (procurement_source_doctype doc
                       ≠ Some "Supplier Quotation") then (doc, Pass)
  else if negb (truthy (procurement_source_name doc)) then (doc, Pass)
  else
    match get_doc_opt st "Supplier Quotation" (procurement_source_name doc) with
    | None => (doc, Pass)
    | Some sq =>
        if negb (truthy (supplier doc)) then (set_supplier doc (supplier sq), Pass)
        else if bool_decide (supplier doc ≠ supplier sq)
        then (doc, Reject (SupplierMismatch (supplier sq) (supplier doc)))
        else (doc, Pass)
    end.

Definition on_po_validate (st : Store) (doc : Document) : result :=
  let '(doc, r) := validate_supplier_matches_sq st doc in
  and_then r (validate_po_against_rfq st doc).

Definition set_items (d : Document) (l : list Item) : Document :=
  mkDoc (doctype d) (name d) (docstatus d) (islocal d)
    (procurement_source_doctype d) (procurement_source_name d) (supplier d)
    l (suppliers d) (procurement_links d).

(** The assignments to one RFQ item for a Purchase Order quantity. *)
Definition update_item (action : string) (po_qty : Z) (rfq_item : Item) : Item :=
  let ordered :=
    if bool_decide (action = "add")
    then Some (flt (ordered_qty rfq_item) + po_qty)
    else if bool_decide (action = "subtract")
    then Some (0 `max` (flt (ordered_qty rfq_item) - po_qty))
    else ordered_qty rfq_item in
  mkItem (item_code rfq_item) (qty rfq_item) ordered
    (Some (flt (qty rfq_item) - flt ordered)).

(** The inner loop: the first RFQ item with the code is updated, then
    [break]. *)
Fixpoint update_first (code : string) (f : Item → Item) (l : list Item)
  : list Item :=
  match l with
  | [] => []
  | i :: l' =>
      if bool_decide (item_code i = code) then f i :: l'
      else i :: update_first code f l'
  end.

Definition apply_po_item (action : string) (rfq_items : list Item)
    (po_item : Item) : list Item :=
  update_first (item_code po_item)
    (update_item action (flt (qty po_item))) rfq_items.

Definition update_rfq_ordered_qty (st : Store) (po_doc : Document)
    (action : string) : Store :=
  if bool_decide (doctype po_doc ≠ "Purchase Order") then st
  else if bool_decide (procurement_source_doctype po_doc
                       ≠ Some "Supplier Quotation") then st
  else
    match get_doc_opt st "Supplier Quotation" (procurement_source_name po_doc) with
    | None => st
    | Some sq =>
        if bool_decide (procurement_source_doctype sq
                        ≠ Some "Request for Quotation")
           || negb (truthy (procurement_source_name sq)) then st
        else
          match get_doc_opt st "Request for Quotation"
                  (procurement_source_name sq) with
          | None => st
          | Some rfq =>
              save st (set_items rfq
                         (foldl (apply_po_item action) (items rfq)
                            (items po_doc)))
          end
    end.

(** The Supplier Quotation [sq] came from a Request for Quotation. *)
Definition from_rfq (sq : Document) : Prop :=
  procurement_source_doctype sq = Some "Request for Quotation"
  ∧ truthy (procurement_source_name sq) = true.

Definition on_po_submit (st : Store) (doc : Document) : Store :=
  update_rfq_ordered_qty st doc "add".

Definition on_po_cancel (st : Store) (doc : Document) : Store :=
  update_rfq_ordered_qty st doc "subtract".

End PoControl.

(** ** doctype/rfq_supplier_rule/rfq_supplier_rule.py *)

Module SupplierRule.

Record Rule := mkRule {
  rule_name : string;
  amount_from : Z;
  amount_to : Z;
  min_suppliers : Z;
  priority : Z;
  is_active : bool;
}.

#[global] Instance Rule_eq_dec : EqDecision Rule.
Proof. solve_decision. Defined.

(** The [filters] of the query. *)
Definition covers (total_amount : Z) (r : Rule) : Prop :=
  is_active r = true ∧ amount_from r ≤ total_amount ∧ amount_to r > total_amount.

#[global] Instance covers_dec a r : Decision (covers a r).
Proof. unfold covers. apply _. Defined.

(** [order_by = "priority asc, amount_from asc"]. *)
Definition rule_le (x y : Rule) : bool :=
  bool_decide (priority x < priority y
               ∨ (priority x = priority y ∧ amount_from x ≤ amount_from y)).

Definition get_applicable_rule (rules : list Rule) (total_amount : Z)
  : option Rule :=
  head (sorted_by rule_le (filter (covers total_amount) rules)).

End SupplierRule.

(** ** Quantities as the specification words them *)

Module Ledger.
Import Workflow.

Definition Zsum (l : list Z) : Z := foldr Z.add 0 l.

(** The quantity a document requests of one item code, over all its lines. *)
Definition doc_qty (code : string) (d : Document) : Z :=
  Zsum ((λ i, flt (qty i)) <$> filter (λ i, item_code i = code) (items d)).

(** [d] is a sibling of [doc]: a non-cancelled stored document of the same
    doctype made from the same source, other than the stored version of
    [doc] itself when [doc] is an update. *)
Definition sibling (doc d : Document) : Prop :=
  child_of (doctype doc)
    (default "" (procurement_source_doctype doc))
    (default "" (procurement_source_name doc)) d
  ∧ ¬ (islocal doc = false ∧ name d = name doc).

#[global] Instance sibling_dec doc d : Decision (sibling doc d).
Proof. unfold sibling. apply _. Defined.

(** A total as the source accumulates it: from 0, one quantity after the
    other, in the order the lines are visited. *)
Definition running_total (qs : list Z) : Z := foldl Z.add 0 qs.

(** The quantities of the lines of [d] with item code [code], in line
    order. *)
Definition line_quantities (code : string) (d : Document) : list Z :=
  (λ i, flt (qty i)) <$> filter (λ i, item_code i = code) (items d).

(** The consumed total of an item code: the running total of its
    quantities over the siblings of [doc], sibling after sibling in query
    order and line after line within a sibling. *)
Definition consumed_by_siblings (st : Store) (doc : Document) (code : string) : Z :=
  running_total (filter (sibling doc) st ≫= line_quantities code).

(** The quantity the source declares for an item code: that of its first
    line with the code. *)
Definition declared_qty (source : Document) (code : string) : option Z :=
  (λ i, flt (qty i)) <$> List.find (λ i, bool_decide (item_code i = code)) (items source).

(** The ["total"] a dict of [get_consumed_quantities_detailed] holds for an
    item code, 0 when it has no entry. *)
Definition total_of (code : string) (consumed : gmap string Consumed) : Z :=
  (default (0, []) (consumed !! code)).1.


(** A line of [doc] asks for more than what is left of the source. *)
Definition line_exceeds (st : Store) (doc source : Document) (line : Item) : Prop :=
  ∃ q, declared_qty source (item_code line) = Some q
       ∧ flt (qty line) > q - consumed_by_siblings st doc (item_code line).

(** Quantities of [doc] are tracked against another document than its
    source: a Purchase Order made from a Supplier Quotation that itself came
    from a Request for Quotation. *)
Definition rerooted (doc source : Document) : Prop :=
  doctype doc = "Purchase Order"
  ∧ procurement_source_doctype doc = Some "Supplier Quotation"
  ∧ procurement_source_doctype source = Some "Request for Quotation"
  ∧ truthy (procurement_source_name source) = true.

(** The quantities of one item code over the non-cancelled Purchase Orders
    made from the submitted Supplier Quotations of an RFQ, order after
    order in query order and line after line within an order. *)
Definition quantities_via_quotations (st : Store) (rfq_name code : string)
  : list Z :=
  filter (PoControl.po_of_sqs
            (name <$> filter (PoControl.submitted_sq_of rfq_name) st)) st
  ≫= line_quantities code.

(** The total of one item over the non-cancelled Purchase Orders made from
    the submitted Supplier Quotations of an RFQ. *)
Definition ordered_via_quotations (st : Store) (rfq_name code : string) : Z :=
  Zsum (doc_qty code <$>
        filter (PoControl.po_of_sqs
                  (name <$> filter (PoControl.submitted_sq_of rfq_name) st)) st).

End Ledger.

(** ** The RFQ gate as the specification words it *)

Module DynamicGate.
Import PoControl.




End DynamicGate.

(** ** The host's save and submit, as far as the hooks of hooks.py go

    [doc_events] of hooks.py registers [validate_procurement_document] on
    [validate], [on_procurement_submit] on [on_submit], and for a Purchase
    Order also [on_po_validate] and [on_po_submit]; the host runs [validate]
    before it stores a document and [on_submit] after it has stored the
    submitted one. *)

Module Hooks.
Import Workflow Links PoControl.

Definition set_status (d : Document) (status : Z) (new : bool) : Document :=
  mkDoc (doctype d) (name d) status new
    (procurement_source_doctype d) (procurement_source_name d) (supplier d)
    (items d) (suppliers d) (procurement_links d).

(** The [validate] event: [validate_procurement_document], then for a
    Purchase Order [on_po_validate]. *)
Definition validate (flows : list Flow) (st : Store) (doc : Document) : result :=
  and_then (validate_procurement_document flows st doc)
    (if bool_decide (doctype doc = "Purchase Order")
     then on_po_validate st doc else Pass).

(** The document as the [validate] event leaves it: the hooks run on the
    object the host then stores, and for a Purchase Order
    [validate_supplier_matches_sq] may have filled in its supplier. *)
Definition validated (st : Store) (doc : Document) : Document :=
  if bool_decide (doctype doc = "Purchase Order")
  then (validate_supplier_matches_sq st doc).1 else doc.

(** First save of a new document: it is stored as a draft, as the hooks
    left it, when the [validate] event passes. *)
Definition insert (flows : list Flow) (st : Store) (doc : Document)
  : Store + Error :=
  match validate flows st (set_status doc 0 true) with
  | Pass => inl (st ++ [set_status (validated st (set_status doc 0 true)) 0 false])
  | Reject e => inr e
  end.

(** Submission of a stored draft: the [validate] event, then the
    [on_submit] event on the submitted document. *)
Definition submit (flows : list Flow) (has_field : string → bool) (now : Z)
    (st : Store) (dt n : string) : Store + Error :=
  match get_doc st dt n with
  | None => inr (DoesNotExist dt n)
  | Some doc =>
      match validate flows st doc with
      | Reject e => inr e
      | Pass =>
          let doc := set_status (validated st doc) 1 false in
          let st := save st doc in
          let st := on_procurement_submit has_field now st doc in
          inl (if bool_decide (doctype doc = "Purchase Order")
               then on_po_submit st doc else st)
      end
  end.

End Hooks.

(** ** Concrete documents used in the examples *)

Module Scenario.
Import Workflow SupplierRule.

Definition MR := "Material Request".
Definition PR := "Purchase Requisition".
Definition RFQ := "Request for Quotation".
Definition SQ := "Supplier Quotation".
Definition PO := "Purchase Order".

Definition line (code : string) (q : Z) : Item := mkItem code (Some q) None None.

Definition flow : Flow :=
  mkFlow "Standard" true
    [ mkStep 1 MR false; mkStep 2 PR true; mkStep 3 RFQ true;
      mkStep 4 SQ true; mkStep 5 PO true ].

Definition flows : list Flow := [flow].

Definition has_links_field (dt : string) : bool :=
  bool_decide (dt ∈ PROCUREMENT_DOCTYPES).

(** A submitted requisition for 100 of ITEM-1 and a new RFQ asking for 200. *)
Definition pr1 : Document :=
  mkDoc PR "PR-1" 1 false None None None [line "ITEM-1" 100] [] [].
Definition rfq_new : Document :=
  mkDoc RFQ "" 0 true (Some PR) (Some "PR-1") None [line "ITEM-1" 200] [] [].

(** Two new requisitions against a Material Request for 100 of ITEM-1. *)
Definition mr1 : Document :=
  mkDoc MR "MR-1" 1 false None None None [line "ITEM-1" 100] [] [].
Definition pr_a : Document :=
  mkDoc PR "PR-A" 1 false (Some MR) (Some "MR-1") None [line "ITEM-1" 70] [] [].
Definition pr_new : Document :=
  mkDoc PR "" 0 true (Some MR) (Some "MR-1") None [line "ITEM-1" 30] [] [].

(** A second stored requisition against MR-1, for 20. *)
Definition pr_b : Document :=
  mkDoc PR "PR-B" 0 false (Some MR) (Some "MR-1") None [line "ITEM-1" 20] [] [].

(** An RFQ for 100 of ITEM-1 sent to suppliers S1 and S2. *)
Definition rfq1 : Document :=
  mkDoc RFQ "RFQ-1" 1 false None None None [line "ITEM-1" 100] ["S1"; "S2"] [].

(** Two quotations that split the RFQ quantity. *)
Definition sq1 : Document :=
  mkDoc SQ "SQ-1" 1 false (Some RFQ) (Some "RFQ-1") (Some "S1")
    [line "ITEM-1" 60] [] [].
Definition sq2 : Document :=
  mkDoc SQ "SQ-2" 1 false (Some RFQ) (Some "RFQ-1") (Some "S2")
    [line "ITEM-1" 40] [] [].

(** Two quotations for the full RFQ quantity; the second is being saved. *)
Definition sq1_full : Document :=
  mkDoc SQ "SQ-1" 1 false (Some RFQ) (Some "RFQ-1") (Some "S1")
    [line "ITEM-1" 100] [] [].
Definition sq2_full_new : Document :=
  mkDoc SQ "" 0 true (Some RFQ) (Some "RFQ-1") (Some "S2")
    [line "ITEM-1" 100] [] [].

(** Purchase Orders for 60 through SQ-1 and for 50 through SQ-2. *)
Definition po_a : Document :=
  mkDoc PO "PO-A" 0 true (Some SQ) (Some "SQ-1") (Some "S1")
    [line "ITEM-1" 60] [] [].
Definition po_b : Document :=
  mkDoc PO "PO-B" 0 true (Some SQ) (Some "SQ-2") (Some "S2")
    [line "ITEM-1" 50] [] [].

Definition quoted : Store := [rfq1; sq1; sq2].

(** A new Purchase Order for 80 through SQ-1, which quotes 60. *)
Definition po_over : Document :=
  mkDoc PO "" 0 true (Some SQ) (Some "SQ-1") (Some "S1")
    [line "ITEM-1" 80] [] [].

(** A Purchase Order through SQ-1 that carries ITEM-1 on two lines. *)
Definition po_split : Document :=
  mkDoc PO "PO-C" 1 false (Some SQ) (Some "SQ-1") (Some "S1")
    [line "ITEM-1" 30; line "ITEM-1" 20] [] [].

(** The stores of the two-orders history: both orders saved as drafts,
    then PO-A submitted, then PO-B submitted. *)
Definition with_drafts : Store :=
  quoted ++ [Hooks.set_status po_a 0 false; Hooks.set_status po_b 0 false].

Definition after_a : Store :=
  [ mkDoc RFQ "RFQ-1" 1 false None None None
      [mkItem "ITEM-1" (Some 100) (Some 60) (Some 40)] ["S1"; "S2"] [];
    mkDoc SQ "SQ-1" 1 false (Some RFQ) (Some "RFQ-1") (Some "S1")
      [line "ITEM-1" 60] [] [mkLink SQ "SQ-1" PO "PO-A" 1];
    sq2; Hooks.set_status po_a 1 false; Hooks.set_status po_b 0 false ].

Definition after_b : Store :=
  [ mkDoc RFQ "RFQ-1" 1 false None None None
      [mkItem "ITEM-1" (Some 100) (Some 110) (Some (-10))] ["S1"; "S2"] [];
    mkDoc SQ "SQ-1" 1 false (Some RFQ) (Some "RFQ-1") (Some "S1")
      [line "ITEM-1" 60] [] [mkLink SQ "SQ-1" PO "PO-A" 1];
    mkDoc SQ "SQ-2" 1 false (Some RFQ) (Some "RFQ-1") (Some "S2")
      [line "ITEM-1" 40] [] [mkLink SQ "SQ-2" PO "PO-B" 2];
    Hooks.set_status po_a 1 false; Hooks.set_status po_b 1 false ].

(** RFQ-1 and SQ-1 as they are stored once PO-A is submitted. *)
Definition rfq1_ordered : Document :=
  mkDoc RFQ "RFQ-1" 1 false None None None
    [mkItem "ITEM-1" (Some 100) (Some 60) (Some 40)] ["S1"; "S2"] [].
Definition sq1_linked : Document :=
  mkDoc SQ "SQ-1" 1 false (Some RFQ) (Some "RFQ-1") (Some "S1")
    [line "ITEM-1" 60] [] [mkLink SQ "SQ-1" PO "PO-A" 1].

(** A Purchase Order made from a manually created Supplier Quotation. *)
Definition sq_manual : Document :=
  mkDoc SQ "SQ-9" 1 false None None (Some "S1") [line "ITEM-1" 10] [] [].
Definition po_manual : Document :=
  mkDoc PO "PO-9" 1 false (Some SQ) (Some "SQ-9") (Some "S1")
    [line "ITEM-1" 10] [] [].

(** Two documents whose source pointers point at each other. *)
Definition pr_loop : Document :=
  mkDoc PR "PR-7" 1 false (Some RFQ) (Some "RFQ-7") None [] [] [].
Definition rfq_loop : Document :=
  mkDoc RFQ "RFQ-7" 1 false (Some PR) (Some "PR-7") None [] [] [].
Definition looped : Store := [pr_loop; rfq_loop].

(** A requisition with one recorded Request for Quotation child. *)
Definition pr_with_child : Document :=
  mkDoc PR "PR-2" 1 false None None None [line "ITEM-1" 5] []
    [mkLink PR "PR-2" RFQ "RFQ-2" 0].

Definition rule_low : Rule := mkRule "Low" 100 1000 3 1 true.
Definition rule_high : Rule := mkRule "High" 1000 5000 5 1 true.

End Scenario.


(** ** utils/procurement_workflow.py: steps, totals and available quantities *)

Module Queries.
Import Workflow Links.

(** The loop [for i, step in enumerate(steps)] of [get_next_step], resumed
    at index [i] with [rest] still to visit. *)
Fixpoint next_step_from (dt : string) (steps : list FlowStep)
    (i : nat) (rest : list FlowStep) : option FlowStep :=
  match rest with
  | [] => None
  | step :: rest' =>
      if bool_decide (doctype_name step = dt)
         && bool_decide (i < length steps - 1)%nat
      then steps !! (i + 1)%nat
      else next_step_from dt steps (S i) rest'
  end.

(** The returned dict carries the three fields of the next step. *)
Definition get_next_step (dt : string) (flow : Flow) : option FlowStep :=
  let steps := get_flow_steps flow in
  next_step_from dt steps 0%nat steps.

(** [consumed[item_code] = consumed.get(item_code, 0) + qty]. *)
Definition add_qty (consumed : gmap string Z) (item : Item) : gmap string Z :=
  <[item_code item := default 0 (consumed !! item_code item) + flt (qty item)]>
    consumed.

Definition add_child_qty (st : Store) (target_doctype : string)
    (exclude_doc : option string)
    (consumed : gmap string Z) (doc_name : string) : gmap string Z :=
  if excluded exclude_doc doc_name then consumed
  else
    match get_doc st target_doctype doc_name with
    | Some target_doc => foldl add_qty consumed (items target_doc)
    | None => consumed
    end.

Definition get_consumed_quantities (st : Store)
    (source_doctype source_name target_doctype : string)
    (exclude_doc : option string) : gmap string Z :=
  match get_items_field_name target_doctype with
  | None => ∅
  | Some _ =>
      foldl (add_child_qty st target_doctype exclude_doc) ∅
        (get_all_children st target_doctype source_doctype source_name)
  end.

(** [quantities[item.item_code] = item.qty or 0]: a later line of the same
    code replaces an earlier one. *)
Definition get_document_item_quantities (st : Store) (dt docname : string)
  : gmap string Z :=
  match get_doc st dt docname with
  | None => ∅
  | Some doc =>
      match get_items_field_name dt with
      | Some _ =>
          foldl (λ quantities item, <[item_code item := flt (qty item)]> quantities)
            ∅ (items doc)
      | None => ∅
      end
  end.

(** One entry of the dict [get_available_quantities] returns. *)
Record Available := mkAvailable {
  source_qty : Z;
  consumed_qty : Z;
  available_qty : Z;
}.

(** [None] is the [frappe.DoesNotExistError] of the unguarded
    [frappe.get_doc] on the source. *)
Definition get_available_quantities (st : Store)
    (source_doctype source_name target_doctype : string)
  : option (gmap string Available) :=
  match get_doc st source_doctype source_name with
  | None => None
  | Some source_doc =>
      match get_items_field_name source_doctype with
      | None => Some ∅
      | Some _ =>
          let consumed_quantities :=
            get_consumed_quantities st source_doctype source_name
              target_doctype None in
          Some (foldl
                  (λ available item,
                     let source_qty := flt (qty item) in
                     let consumed_qty :=
                       default 0 (consumed_quantities !! item_code item) in
                     <[item_code item :=
                         mkAvailable source_qty consumed_qty
                           (source_qty - consumed_qty)]> available)
                  ∅ (items source_doc))
      end
  end.

(** The outcome of a recursion that may not return. *)
Inductive outcome (A : Type) :=
| Returned (a : A)
| Raised (e : Error)
| OutOfFuel.
Arguments Returned {A} a.
Arguments Raised {A} e.
Arguments OutOfFuel {A}.

(** [get_document_chain]: the recursion on the source pointer has no
    bound of its own; [fuel] bounds its depth.  The missing document of an
    unguarded [frappe.get_doc] raises. *)
Fixpoint get_document_chain (st : Store) (fuel : nat) (dt docname : string)
  : outcome (list (string * string) * list (string * string)) :=
  match fuel with
  | O => OutOfFuel
  | S fuel' =>
      match get_doc st dt docname with
      | None => Raised (DoesNotExist dt docname)
      | Some doc =>
          let forward :=
            (λ link, (target_doctype link, target_docname link))
              <$> procurement_links doc in
          if truthy (procurement_source_doctype doc)
             && truthy (procurement_source_name doc)
          then
            let sdt := default "" (procurement_source_doctype doc) in
            let sname := default "" (procurement_source_name doc) in
            match get_document_chain st fuel' sdt sname with
            | Returned source_chain =>
                Returned (source_chain.1 ++ [(sdt, sname)], forward)
            | Raised e => Raised e
            | OutOfFuel => OutOfFuel
            end
          else Returned ([], forward)
      end
  end.

(** [l] lists the ancestors of the document [(dt, docname)], nearest
    first: each is the stored source of the one before it, and the last
    has no source. *)
Fixpoint ancestry (st : Store) (dt docname : string)
    (l : list (string * string)) : Prop :=
  match get_doc st dt docname with
  | None => False
  | Some doc =>
      match l with
      | [] =>
          truthy (procurement_source_doctype doc)
          && truthy (procurement_source_name doc) = false
      | (sdt, sname) :: l' =>
          truthy (procurement_source_doctype doc)
          && truthy (procurement_source_name doc) = true
          ∧ procurement_source_doctype doc = Some sdt
          ∧ procurement_source_name doc = Some sname
          ∧ ancestry st sdt sname l'
      end
  end.

End Queries.

(** ** doctype/procurement_flow/procurement_flow.py *)

Module FlowDoc.
Import Workflow.

Inductive FlowError :=
| StepNumbersNotUnique
| StepNumbersNotSequential
| AnotherActiveFlow (existing_active : string)
| FirstStepRequiresSource (no : Z) (dt : string).

(** [list(range(1, n + 1))]. *)
Definition range_from_1 (n : nat) : list Z := Z.of_nat <$> seq 1 n.

(** [None] when nothing is thrown. *)
Definition validate_step_numbers (self : Flow) : option FlowError :=
  let step_numbers := step_no <$> flow_steps self in
  if bool_decide (length step_numbers
                  ≠ size (list_to_set step_numbers : gset Z))
  then Some StepNumbersNotUnique
  else
    let sorted_steps := sorted_by (λ x y, bool_decide (x ≤ y)) step_numbers in
    if bool_decide (sorted_steps ≠ range_from_1 (length sorted_steps))
    then Some StepNumbersNotSequential
    else None.

(** The table of flows holds each flow under its document name;
    [frappe.db.exists] returns the name of the first row that matches. *)
Definition validate_only_one_active_flow (table : list (string * Flow))
    (self_name : string) (self : Flow) : option FlowError :=
  if is_active self then
    match List.find (λ row, is_active row.2 && bool_decide (row.1 ≠ self_name))
            table with
    | Some existing_active => Some (AnotherActiveFlow existing_active.1)
    | None => None
    end
  else None.

(** Only index 0 of the rows, in table order, can throw. *)
Definition validate_step_sequence (self : Flow) : option FlowError :=
  match flow_steps self with
  | step :: _ =>
      if requires_source step
      then Some (FirstStepRequiresSource (step_no step) (doctype_name step))
      else None
  | [] => None
  end.

Definition validate (table : list (string * Flow)) (self_name : string)
    (self : Flow) : option FlowError :=
  match validate_step_numbers self with
  | Some e => Some e
  | None =>
      match validate_only_one_active_flow table self_name self with
      | Some e => Some e
      | None => validate_step_sequence self
      end
  end.

End FlowDoc.

(** ** doctype/rfq_supplier_rule/rfq_supplier_rule.py: the document class *)

Module RuleDoc.
Import SupplierRule.

Inductive RuleError :=
| InvalidAmountRange (amount_from amount_to : Z)
| OverlappingAmountRanges (overlapping_rules : list Rule)
| InvalidMinimumSuppliers.

Definition validate_amount_range (self : Rule) : option RuleError :=
  if bool_decide (amount_from self >= amount_to self)
  then Some (InvalidAmountRange (amount_from self) (amount_to self))
  else None.

Definition validate_min_suppliers (self : Rule) : option RuleError :=
  if bool_decide (min_suppliers self < 1)
  then Some InvalidMinimumSuppliers
  else None.

(** The table of rules holds each rule under its document name. *)
Definition validate_no_overlaps (table : list (string * Rule))
    (self_name : string) (self : Rule) : option RuleError :=
  if negb (is_active self) then None
  else
    let other_rules :=
      snd <$> List.filter (λ row, bool_decide (row.1 ≠ self_name)
                                  && is_active row.2) table in
    let overlapping_rules :=
      List.filter (λ rule, bool_decide (amount_from self < amount_to rule)
                           && bool_decide (amount_from rule < amount_to self))
        other_rules in
    match overlapping_rules with
    | [] => None
    | _ :: _ => Some (OverlappingAmountRanges overlapping_rules)
    end.

Definition validate (table : list (string * Rule)) (self_name : string)
    (self : Rule) : option RuleError :=
  match validate_amount_range self with
  | Some e => Some e
  | None =>
      match validate_no_overlaps table self_name self with
      | Some e => Some e
      | None => validate_min_suppliers self
      end
  end.

End RuleDoc.

(** ** utils/procurement_workflow.py: creating the next document *)

Module Make.
Import Workflow Queries.

Inductive MakeError :=
| TargetRequired
| SourceNotFound
| SourceNotSubmitted (source_name target_doctype : string)
| InvalidTarget (expected source_doctype : string)
| CannotMapItems
| NoItemsToCopy.

(** The line appended to the target for a source line: item code and
    quantity are copied; the RFQ tracking fields are not among the copied
    fields. *)
Definition copy_item (source_item : Item) : Item :=
  mkItem (item_code source_item) (qty source_item) None None.

(** [frappe.new_doc(target_doctype)] with the source fields and the copied
    lines: a local draft without a name. *)
Definition new_target (target_doctype source_doctype source_name : string)
    (source_items : list Item) : Document :=
  mkDoc target_doctype "" 0 true (Some source_doctype) (Some source_name) None
    (copy_item <$> source_items) [] [].

(** [target_doctype] is what the call, its keyword arguments or the
    request carry, if any. *)
Definition make_procurement_document (flows : list Flow) (st : Store)
    (source_name : string) (target_doctype : option string)
  : Document + MakeError :=
  if negb (truthy target_doctype) then inr TargetRequired
  else
    let target_doctype := default "" target_doctype in
    match List.find (λ dt, bool_decide (is_Some (get_doc st dt source_name)))
            PROCUREMENT_DOCTYPES with
    | None => inr SourceNotFound
    | Some source_doctype =>
      match get_doc st source_doctype source_name with
      | None => inr SourceNotFound
      | Some source_doc =>
        if bool_decide (docstatus source_doc ≠ 1)
        then inr (SourceNotSubmitted source_name target_doctype)
        else
          let wrong_target :=
            match get_active_flow flows with
            | Some active_flow =>
                match get_next_step source_doctype active_flow with
                | Some next_step =>
                    if bool_decide (doctype_name next_step ≠ target_doctype)
                    then Some (doctype_name next_step)
                    else None
                | None => None
                end
            | None => None
            end in
          match wrong_target with
          | Some expected => inr (InvalidTarget expected source_doctype)
          | None =>
            match get_items_field_name source_doctype,
                  get_items_field_name target_doctype with
            | Some _, Some _ =>
                match items source_doc with
                | [] => inr NoItemsToCopy
                | source_items =>
                    inl (new_target target_doctype source_doctype source_name
                           source_items)
                end
            | _, _ => inr CannotMapItems
            end
          end
      end
    end.

End Make.

(** ** utils/procurement_workflow.py: the forward walk of the link bar *)

Module Descendants.
Import Workflow Links.

(** A loop whose body may fail to return. *)
Fixpoint fold_opt {A S : Type} (body : S → A → option S) (s : S) (l : list A)
  : option S :=
  match l with
  | [] => Some s
  | x :: l' =>
      match body s x with
      | Some s' => fold_opt body s' l'
      | None => None
      end
  end.

(** [if child_doctype not in forward_by_type: forward_by_type[child_doctype] = []]. *)
Definition dict_ensure (k : string) (d : list (string * list string))
  : list (string * list string) :=
  if bool_decide (is_Some (dict_get k d)) then d else d ++ [(k, [])].

(** [if name not in forward_by_type[child_doctype]: ... .append(name)]. *)
Definition dict_add_absent (k v : string) (d : list (string * list string))
  : list (string * list string) :=
  if bool_decide (v ∈ default [] (dict_get k d)) then d else dict_append k v d.

(** The state the recursion shares: the [visited] set and
    [forward_by_type]. *)
Definition WalkState := (gset string * list (string * list string))%type.

(** [collect_all_descendants]; [fuel] bounds the depth of the recursion,
    and [None] says that the bound was reached. *)
Fixpoint collect_all_descendants (st : Store) (fuel : nat) (dt dn : string)
    (s : WalkState) : option WalkState :=
  match fuel with
  | O => None
  | S fuel' =>
      let doc_key := doc_key dt dn in
      if bool_decide (doc_key ∈ s.1) then Some s
      else
        fold_opt
          (λ s child_doctype,
             match get_all_children st child_doctype dt dn with
             | [] => Some s
             | child_docs =>
                 fold_opt
                   (λ s child_name,
                      collect_all_descendants st fuel' child_doctype child_name
                        (s.1, dict_add_absent child_doctype child_name s.2))
                   (s.1, dict_ensure child_doctype s.2) child_docs
             end)
          ({[doc_key]} ∪ s.1, s.2) PROCUREMENT_DOCTYPES
  end.

(** [v] is among the names [forward_by_type] lists under doctype [k]. *)
Definition listed (k v : string) (d : list (string * list string)) : Prop :=
  v ∈ default [] (dict_get k d).

(** Every key a stored document can be visited under. *)
Definition store_keys (st : Store) : gset string :=
  list_to_set ((λ d, doc_key (doctype d) (name d)) <$> st).

End Descendants.
(** * Properties *)

(** ** Shared lemmas *)

Lemma and_then_pass r k : and_then r k = Pass ↔ r = Pass ∧ k = Pass.
Proof. destruct r; simpl; split; [tauto | tauto | discriminate | intros [? _]; discriminate]. Qed.

Lemma for_each_pass {A} (check : A → result) (l : list A) :
  for_each check l = Pass ↔ Forall (λ x, check x = Pass) l.
Proof.
  induction l as [|x l IH]; simpl.
  - split; [constructor | reflexivity].
  - rewrite and_then_pass, Forall_cons, IH. reflexivity.
Qed.

Lemma get_doc_key st dt n d : get_doc st dt n = Some d → doctype d = dt ∧ name d = n.
Proof.
  unfold get_doc. intros H. apply find_some in H as [_ H].
  apply bool_decide_eq_true_1 in H. exact H.
Qed.

Lemma get_doc_elem st dt n d : get_doc st dt n = Some d → d ∈ st.
Proof.
  unfold get_doc. intros H. apply find_some in H as [H _].
  apply list_elem_of_In. exact H.
Qed.

(** In a store with unique keys, a stored document is the one its key loads. *)
Lemma get_doc_in st d :
  store_wf st → d ∈ st → get_doc st (doctype d) (name d) = Some d.
Proof.
  unfold store_wf, get_doc. induction st as [|x st IH]; intros Hwf Hin.
  - inversion Hin.
  - rewrite fmap_cons in Hwf. apply NoDup_cons in Hwf as [Hx Hwf]. simpl.
    destruct (bool_decide_reflect (has_key (doctype d) (name d) x)) as [[Hdt Hn]|Hne].
    + apply elem_of_cons in Hin as [->|Hin]; [reflexivity|].
      exfalso. apply Hx. apply list_elem_of_fmap. exists d. split; [|exact Hin].
      unfold key. congruence.
    + apply elem_of_cons in Hin as [->|Hin].
      * exfalso. apply Hne. split; reflexivity.
      * apply IH; assumption.
Qed.

(** Saving a document that is stored makes it the one its key loads. *)
Lemma get_doc_save st d d' :
  get_doc st (doctype d') (name d') = Some d →
  get_doc (save st d') (doctype d') (name d') = Some d'.
Proof.
  unfold get_doc, save. induction st as [|x st IH]; simpl; [discriminate|].
  destruct (bool_decide_reflect (has_key (doctype d') (name d') x)) as [Hk|Hk].
  - intros _. rewrite bool_decide_eq_true_2; [reflexivity | split; reflexivity].
  - intros H. rewrite bool_decide_eq_false_2 by exact Hk. apply IH. exact H.
Qed.

Lemma truthy_Some o : truthy o = true → o = Some (default "" o).
Proof. destruct o; simpl; [reflexivity | discriminate]. Qed.

(** ** The quantity ledger *)

Section ConsumedTotal.
Import Workflow Ledger.







End ConsumedTotal.

(** ** Quantity containment (validate_quantity_limits) *)

Section QuantityLimits.
Import Workflow Ledger.


Lemma check_item_pass source consumed line :
  check_item (items source) consumed line = Pass
  ↔ ∃ q, declared_qty source (item_code line) = Some q
         ∧ flt (qty line) ≤ q - total_of (item_code line) consumed.
Proof.
  unfold check_item, declared_qty, total_of.
  destruct (List.find _ (items source)) as [si|]; simpl.
  - case_bool_decide as Hgt.
    + split; [discriminate | intros (q & [= <-] & Hle); lia].
    + split; [intros _; eexists; split; [reflexivity | lia] | reflexivity].
  - split; [discriminate | intros (q & Hq & _); discriminate].
Qed.

Lemma tracking_source_same st doc source :
  ¬ rerooted doc source →
  tracking_source st doc source
  = Some (source, default "" (procurement_source_doctype doc),
          default "" (procurement_source_name doc)).
Proof.
  intros Hno. unfold tracking_source.
  destruct (bool_decide_reflect (doctype doc = "Purchase Order")) as [Hpo|]; [|reflexivity].
  destruct (bool_decide_reflect
              (procurement_source_doctype doc = Some "Supplier Quotation")) as [Hsq|];
    [|reflexivity].
  destruct (bool_decide_reflect
              (procurement_source_doctype source = Some "Request for Quotation")) as [Hrfq|];
    [|reflexivity].
  destruct (truthy (procurement_source_name source)) eqn:Ht; [|reflexivity].
  exfalso. apply Hno. repeat split; assumption.
Qed.

(** With both source fields set, outside the RFQ and re-rooting cases, the
    check is the supplier check followed by the loop over the lines. *)
Lemma validate_quantity_limits_lines st doc source :
  truthy (procurement_source_doctype doc) = true →
  truthy (procurement_source_name doc) = true →
  doctype doc ≠ "Request for Quotation" →
  doctype doc ∈ PROCUREMENT_DOCTYPES →
  default "" (procurement_source_doctype doc) ∈ PROCUREMENT_DOCTYPES →
  get_doc st (default "" (procurement_source_doctype doc))
    (default "" (procurement_source_name doc)) = Some source →
  ¬ rerooted doc source →
  validate_quantity_limits st doc
  = and_then
      (if bool_decide (doctype doc = "Supplier Quotation")
          && bool_decide (procurement_source_doctype doc
                          = Some "Request for Quotation")
       then validate_supplier_in_rfq st doc else Pass)
      (for_each
         (check_item (items source)
            (get_consumed_quantities_detailed st
               (default "" (procurement_source_doctype doc))
               (default "" (procurement_source_name doc))
               (doctype doc)
               (if negb (islocal doc) then Some (name doc) else None)))
         (items doc)).
Proof.
  intros Hsd Hsn Hrfq Hdt Hsdt Hsrc Hno. unfold validate_quantity_limits.
  rewrite Hsd, Hsn. simpl negb. simpl orb. cbv iota.
  rewrite (bool_decide_eq_false_2 _ Hrfq).
  rewrite Hsrc, (tracking_source_same _ _ _ Hno).
  unfold get_items_field_name.
  rewrite (bool_decide_eq_true_2 _ Hsdt), (bool_decide_eq_true_2 _ Hdt).
  reflexivity.
Qed.

End QuantityLimits.

Section QuantityClaims.
Import Workflow Ledger Scenario.




(** A second way past the bound on the source: a new Purchase Order for 80
    through SQ-1, which quotes 60, has both source fields set and a line
    that exceeds what its source declares; its quantities are tracked
    against RFQ-1 instead, which declares 100, and every check of the
    [validate] event passes it. *)
Lemma order_exceeding_quotation_passes :
  truthy (procurement_source_doctype po_over) = true
  ∧ truthy (procurement_source_name po_over) = true
  ∧ get_doc quoted SQ "SQ-1" = Some sq1
  ∧ rerooted po_over sq1
  ∧ declared_qty sq1 "ITEM-1" = Some 60
  ∧ Exists (line_exceeds quoted po_over sq1) (items po_over)
  ∧ validate_quantity_limits quoted po_over = Pass
  ∧ Hooks.validate flows quoted po_over = Pass.
Proof.
  repeat split; try reflexivity.
  apply Exists_cons_hd. exists 60. split; reflexivity.
Qed.



End QuantityClaims.

(** ** Competing quotations and the RFQ gate *)

Section Quotations.
Import Workflow Ledger PoControl DynamicGate Hooks Scenario.

(** The skip of [validate_quantity_limits] is on the doctype of the
    document being saved: a Request for Quotation is never checked. *)
Lemma rfq_quantity_not_checked st doc :
  doctype doc = "Request for Quotation" → validate_quantity_limits st doc = Pass.
Proof.
  intros H. unfold validate_quantity_limits.
  destruct (_ || _); [reflexivity|].
  rewrite (bool_decide_eq_true_2 _ H). reflexivity.
Qed.

(** C4: with a quotation of supplier S1 for the full 100 of ITEM-1 stored
    against RFQ-1, saving a quotation of the invited supplier S2 for the
    same 100 is rejected by [validate_quantity_limits]: the first
    quotation is counted as having consumed the RFQ quantity. *)
Theorem second_full_quotation_rejected :
  validate_supplier_in_rfq [rfq1; sq1_full] sq2_full_new = Pass
  ∧ validate_quantity_limits [rfq1; sq1_full] sq2_full_new
    = Reject (QuantityExceeded "ITEM-1" 100 100 0 100 [("SQ-1", 100)])
  ∧ validate flows [rfq1; sq1_full] sq2_full_new
    = Reject (QuantityExceeded "ITEM-1" 100 100 0 100 [("SQ-1", 100)])
  ∧ ∃ e, insert flows [rfq1; sq1_full] sq2_full_new = inr e.
Proof.
  split; [|split; [|split]]; try (vm_compute; reflexivity).
  eexists. vm_compute. reflexivity.
Qed.

(** The scenario in the order the specification tells it: once PO-A for 60
    through SQ-1 is submitted, a new Purchase Order for 50 through SQ-2 is
    rejected on its first save, by [validate_po_against_rfq] reading the
    stored [ordered_qty]. *)
Lemma new_order_after_submitted_order_rejected :
  submit flows has_links_field 1
    (quoted ++ [set_status po_a 0 false]) PO "PO-A"
  = inl [ mkDoc RFQ "RFQ-1" 1 false None None None
            [mkItem "ITEM-1" (Some 100) (Some 60) (Some 40)] ["S1"; "S2"] [];
          mkDoc SQ "SQ-1" 1 false (Some RFQ) (Some "RFQ-1") (Some "S1")
            [line "ITEM-1" 60] [] [mkLink SQ "SQ-1" PO "PO-A" 1];
          sq2; set_status po_a 1 false ]
  ∧ insert flows
      [ mkDoc RFQ "RFQ-1" 1 false None None None
          [mkItem "ITEM-1" (Some 100) (Some 60) (Some 40)] ["S1"; "S2"] [];
        mkDoc SQ "SQ-1" 1 false (Some RFQ) (Some "RFQ-1") (Some "S1")
          [line "ITEM-1" 60] [] [mkLink SQ "SQ-1" PO "PO-A" 1];
        sq2; set_status po_a 1 false ]
      po_b
    = inr (RfqLimitExceeded "ITEM-1" 100 60 40 50).
Proof. split; vm_compute; reflexivity. Qed.

(** C3: the same two orders, saved as drafts before either is submitted.
    Every save and submit passes validation, PO-B included after PO-A is
    submitted, and the non-cancelled Purchase Orders made through the
    quotations of RFQ-1 then total 110 of ITEM-1 against a declared 100. *)
Theorem draft_orders_exceed_rfq_quantity :
  insert flows quoted po_a = inl (quoted ++ [set_status po_a 0 false])
  ∧ insert flows (quoted ++ [set_status po_a 0 false]) po_b = inl with_drafts
  ∧ submit flows has_links_field 1 with_drafts PO "PO-A" = inl after_a
  ∧ validate_quantity_limits after_a (set_status po_b 0 false) = Pass
  ∧ validate_po_against_rfq after_a (set_status po_b 0 false) = Pass
  ∧ submit flows has_links_field 2 after_a PO "PO-B" = inl after_b
  ∧ ordered_via_quotations after_b "RFQ-1" "ITEM-1" = 110
  ∧ declared_qty rfq1 "ITEM-1" = Some 100.
Proof. repeat split; vm_compute; reflexivity. Qed.


End Quotations.


(** ** The stored [ordered_qty] is touched only through an RFQ *)

Section Frame.
Import PoControl Scenario.

(** C10: for a Purchase Order whose source doctype is not "Supplier
    Quotation", or whose source Supplier Quotation did not come from a
    Request for Quotation, the submit hook and the cancel hook leave the
    store as it is; so every RFQ line keeps its [ordered_qty] and
    [remaining_qty]. *)
Theorem po_hooks_frame st po :
  doctype po = "Purchase Order" →
  (procurement_source_doctype po ≠ Some "Supplier Quotation"
   ∨ ∀ sq, get_doc_opt st "Supplier Quotation" (procurement_source_name po) = Some sq
           → ¬ from_rfq sq) →
  on_po_submit st po = st
  ∧ on_po_cancel st po = st
  ∧ ∀ dt n, get_doc (on_po_submit st po) dt n = get_doc st dt n
            ∧ get_doc (on_po_cancel st po) dt n = get_doc st dt n.
Proof.
  intros Hdt Hsrc.
  assert (Hup : ∀ action, update_rfq_ordered_qty st po action = st).
  { intros action. unfold update_rfq_ordered_qty.
    case_bool_decide; [reflexivity|].
    case_bool_decide as Hsd; [reflexivity|].
    destruct Hsrc as [Hne|Hsq]; [contradiction|].
    destruct (get_doc_opt st "Supplier Quotation" _) as [sq|]; [|reflexivity].
    specialize (Hsq sq eq_refl). unfold from_rfq in Hsq.
    case_bool_decide as Hd; [reflexivity|].
    destruct (truthy (procurement_source_name sq)) eqn:Ht; [|reflexivity].
    exfalso. apply Hsq. split; [exact Hd | reflexivity]. }
  unfold on_po_submit, on_po_cancel. rewrite !Hup. auto.
Qed.

(** An order made from a manually created quotation. *)
Lemma po_hooks_frame_witness :
  on_po_submit [sq_manual; po_manual] po_manual = [sq_manual; po_manual]
  ∧ on_po_cancel [sq_manual; po_manual] po_manual = [sq_manual; po_manual]
  ∧ ∀ dt n,
      get_doc (on_po_submit [sq_manual; po_manual] po_manual) dt n
      = get_doc [sq_manual; po_manual] dt n
      ∧ get_doc (on_po_cancel [sq_manual; po_manual] po_manual) dt n
        = get_doc [sq_manual; po_manual] dt n.
Proof.
  apply (po_hooks_frame [sq_manual; po_manual] po_manual).
  - reflexivity.
  - right. intros sq Hsq. vm_compute in Hsq. injection Hsq as <-.
    intros [H _]. discriminate H.
Defined.

End Frame.

(** ** Link graph *)

Section LinkGraph.
Import Links Scenario.

Lemma filter_none {A} (P : A → Prop) `{!∀ x, Decision (P x)} (l : list A) :
  ¬ Exists P l → filter P l = [].
Proof.
  induction l as [|x l IH]; intros Hno; [reflexivity|].
  rewrite filter_cons, decide_False by (intros HP; apply Hno; left; exact HP).
  apply IH. intros HE. apply Hno. right. exact HE.
Qed.

Lemma create_backward_link_again has_field now st sdt snm tdt tnm d :
  get_doc st sdt snm = Some d →
  Exists (link_to tdt tnm) (procurement_links d) →
  create_backward_link has_field now st sdt snm tdt tnm = st.
Proof.
  intros Hd Hex. unfold create_backward_link. rewrite Hd.
  destruct (negb (has_field sdt)); [reflexivity|].
  rewrite bool_decide_eq_true_2 by exact Hex. reflexivity.
Qed.

(** A call of [create_backward_link] followed by a second one with the same
    arguments, at any later time: the second call changes nothing. *)
Lemma create_backward_link_twice has_field now now' st sdt snm tdt tnm :
  create_backward_link has_field now'
    (create_backward_link has_field now st sdt snm tdt tnm) sdt snm tdt tnm
  = create_backward_link has_field now st sdt snm tdt tnm.
Proof.
  unfold create_backward_link at 2 3.
  destruct (get_doc st sdt snm) as [d|] eqn:Hd.
  - destruct (has_field sdt) eqn:Hf; simpl.
    + case_bool_decide as Hex.
      * eapply create_backward_link_again; eassumption.
      * destruct (get_doc_key _ _ _ _ Hd) as [Hdt Hn].
        eapply create_backward_link_again.
        -- rewrite <- Hdt at 2. rewrite <- Hn at 2.
           apply (get_doc_save st d (append_link d _)). simpl.
           rewrite Hdt, Hn. exact Hd.
        -- simpl. apply Exists_app. right. apply Exists_cons_hd. split; reflexivity.
    + unfold create_backward_link. rewrite Hd, Hf. reflexivity.
  - unfold create_backward_link. rewrite Hd. reflexivity.
Qed.

(** C6: when the source document exists, carries the links table and holds
    at most one edge to the target, two calls of [create_backward_link]
    with the same arguments leave exactly one edge to that target in the
    source document, and the second call leaves the store as the first
    call made it. *)
Theorem create_backward_link_idempotent has_field now now' st sdt snm tdt tnm d :
  get_doc st sdt snm = Some d →
  has_field sdt = true →
  (count_links tdt tnm d ≤ 1)%nat →
  let st1 := create_backward_link has_field now st sdt snm tdt tnm in
  let st2 := create_backward_link has_field now' st1 sdt snm tdt tnm in
  st2 = st1
  ∧ ∃ d2, get_doc st2 sdt snm = Some d2 ∧ count_links tdt tnm d2 = 1%nat.
Proof.
  intros Hd Hf Hcount st1 st2. subst st2 st1.
  rewrite create_backward_link_twice. split; [reflexivity|].
  unfold create_backward_link. rewrite Hd, Hf. simpl.
  destruct (get_doc_key _ _ _ _ Hd) as [Hdt Hn].
  case_bool_decide as Hex.
  - exists d. split; [exact Hd|]. unfold count_links in *.
    apply Exists_exists in Hex as (l & Hin & Hl).
    assert (Hin' : l ∈ filter (link_to tdt tnm) (procurement_links d))
      by (apply list_elem_of_filter; split; assumption).
    destruct (filter _ _) as [|x [|y r]]; simpl in *; [inversion Hin' | reflexivity | lia].
  - eexists. split.
    + rewrite <- Hdt at 2. rewrite <- Hn at 2.
      apply (get_doc_save st d (append_link d _)). simpl.
      rewrite Hdt, Hn. exact Hd.
    + unfold count_links. simpl. rewrite filter_app, length_app.
      replace (filter (link_to tdt tnm) (procurement_links d)) with (@nil Link).
      * rewrite filter_cons, decide_True by (split; reflexivity). reflexivity.
      * symmetry. apply filter_none. exact Hex.
Qed.

(** A requisition without links receives its first RFQ child. *)
Lemma create_backward_link_idempotent_witness :
  let st1 := create_backward_link has_links_field 1 [pr1] PR "PR-1" RFQ "RFQ-1" in
  let st2 := create_backward_link has_links_field 2 st1 PR "PR-1" RFQ "RFQ-1" in
  st2 = st1
  ∧ ∃ d2, get_doc st2 PR "PR-1" = Some d2 ∧ count_links RFQ "RFQ-1" d2 = 1%nat.
Proof.
  apply (create_backward_link_idempotent has_links_field 1 2 [pr1]
           PR "PR-1" RFQ "RFQ-1" pr1).
  - reflexivity.
  - reflexivity.
  - vm_compute. lia.
Defined.

End LinkGraph.

(** ** Cancellation *)

Section Cancel.
Import Links Scenario.

Lemma dict_get_append_eq k v d :
  dict_get k (dict_append k v d) = Some (default [] (dict_get k d) ++ [v]).
Proof.
  unfold dict_get. induction d as [|[k' vs] d IH]; simpl.
  - rewrite bool_decide_eq_true_2 by reflexivity. reflexivity.
  - destruct (bool_decide_reflect (k' = k)) as [->|Hne]; simpl.
    + rewrite bool_decide_eq_true_2 by reflexivity. reflexivity.
    + rewrite bool_decide_eq_false_2 by exact Hne. exact IH.
Qed.

Lemma dict_get_append_ne k k' v d :
  k ≠ k' → dict_get k' (dict_append k v d) = dict_get k' d.
Proof.
  intros Hne. unfold dict_get. induction d as [|[k0 vs] d IH]; simpl.
  - rewrite bool_decide_eq_false_2 by exact Hne. reflexivity.
  - destruct (bool_decide_reflect (k0 = k)) as [->|Hne0]; simpl.
    + rewrite !bool_decide_eq_false_2 by exact Hne. reflexivity.
    + destruct (bool_decide (k0 = k')); [reflexivity | exact IH].
Qed.

Lemma group_links_from dt links : ∀ acc,
  dict_get dt
    (foldl (λ docs_by_type link,
              dict_append (target_doctype link) (target_docname link) docs_by_type)
       acc links)
  = match names_of dt links with
    | [] => dict_get dt acc
    | _ :: _ => Some (default [] (dict_get dt acc) ++ names_of dt links)
    end.
Proof.
  unfold names_of. induction links as [|l links IH]; intros acc; [reflexivity|].
  simpl foldl. rewrite IH, filter_cons.
  destruct (decide (target_doctype l = dt)) as [<-|Hne].
  - rewrite dict_get_append_eq, fmap_cons. simpl default.
    destruct (target_docname <$> filter _ links) as [|n ns]; simpl.
    + reflexivity.
    + rewrite <- app_assoc. reflexivity.
  - rewrite dict_get_append_ne by exact Hne. reflexivity.
Qed.

Lemma group_links_get dt links :
  dict_get dt (group_links links)
  = match names_of dt links with [] => None | ns => Some ns end.
Proof.
  unfold group_links. rewrite group_links_from.
  destruct (names_of dt links); reflexivity.
Qed.

(** C7: a document with at least one forward link fails the before-cancel
    check; the rejection counts the links and lists, per target doctype,
    exactly the names of the linked documents of that doctype. *)
Theorem check_can_cancel_rejects doc :
  procurement_links doc ≠ [] →
  check_can_cancel doc
  = Reject (CancellationNotAllowed (length (procurement_links doc))
              (group_links (procurement_links doc)))
  ∧ (∀ link, link ∈ procurement_links doc →
       ∃ names, dict_get (target_doctype link) (group_links (procurement_links doc))
                = Some names
                ∧ target_docname link ∈ names)
  ∧ (∀ dt names n,
       dict_get dt (group_links (procurement_links doc)) = Some names →
       n ∈ names →
       ∃ link, link ∈ procurement_links doc
               ∧ target_doctype link = dt ∧ target_docname link = n).
Proof.
  intros Hne. split; [|split].
  - unfold check_can_cancel. destruct (procurement_links doc); [contradiction | reflexivity].
  - intros link Hin. rewrite group_links_get.
    assert (Hn : target_docname link ∈ names_of (target_doctype link) (procurement_links doc)).
    { unfold names_of. apply list_elem_of_fmap. exists link. split; [reflexivity|].
      apply list_elem_of_filter. split; [reflexivity | exact Hin]. }
    destruct (names_of _ _) as [|x ns]; [inversion Hn|].
    eexists. split; [reflexivity | exact Hn].
  - intros dt names n Hget Hin. rewrite group_links_get in Hget.
    assert (Hn : n ∈ names_of dt (procurement_links doc)).
    { destruct (names_of dt _); [discriminate|]. injection Hget as <-. exact Hin. }
    unfold names_of in Hn. apply list_elem_of_fmap in Hn as (link & -> & Hl).
    apply list_elem_of_filter in Hl as [Hdt Hl].
    exists link. repeat split; assumption.
Qed.

(** A requisition with one Request for Quotation child. *)
Lemma check_can_cancel_rejects_witness :
  check_can_cancel pr_with_child
  = Reject (CancellationNotAllowed 1 [(RFQ, ["RFQ-2"])])
  ∧ (∀ link, link ∈ procurement_links pr_with_child →
       ∃ names, dict_get (target_doctype link)
                  (group_links (procurement_links pr_with_child)) = Some names
                ∧ target_docname link ∈ names)
  ∧ (∀ dt names n,
       dict_get dt (group_links (procurement_links pr_with_child)) = Some names →
       n ∈ names →
       ∃ link, link ∈ procurement_links pr_with_child
               ∧ target_doctype link = dt ∧ target_docname link = n).
Proof.
  apply (check_can_cancel_rejects pr_with_child). discriminate.
Defined.

End Cancel.

(** ** Backward walks *)

Section Walks.
Import Links Scenario.

(** From a state that has made [i] hops, [find_root_document] leaves within
    the iterations that are left, plus the one that fails the loop test. *)
Lemma find_root_leaves st k : ∀ dt n i,
  (max_iterations - i ≤ k)%nat →
  is_Some (run_loop (find_root_step st) (S k) (dt, n, i)).
Proof.
  induction k as [|k IH]; intros dt n i Hk; simpl.
  - rewrite bool_decide_eq_false_2 by lia. eexists; reflexivity.
  - case_bool_decide as Hlt; [|eexists; reflexivity].
    destruct (get_doc st dt n) as [doc|]; [|eexists; reflexivity].
    destruct (_ && _); [|eexists; reflexivity].
    apply IH. lia.
Qed.

Lemma path_leaves st k : ∀ path dt n i,
  (max_iterations - i ≤ k)%nat →
  is_Some (run_loop (path_step st) (S k) (path, dt, n, i)).
Proof.
  induction k as [|k IH]; intros path dt n i Hk; simpl.
  - rewrite bool_decide_eq_false_2 by lia. eexists; reflexivity.
  - case_bool_decide as Hlt; [|eexists; reflexivity].
    destruct (get_doc st dt n) as [doc|]; [|eexists; reflexivity].
    destruct (_ && _); [|eexists; reflexivity].
    apply IH. lia.
Qed.

(** The two capped walks return for every store and every start, cyclic
    source pointers included, within 21 iterations. *)
Lemma capped_walks_return st dt n :
  is_Some (find_root_document st 21 dt n)
  ∧ is_Some (get_path_to_document st 21 dt n).
Proof.
  split.
  - apply (find_root_leaves st 20). unfold max_iterations. lia.
  - unfold get_path_to_document. apply fmap_is_Some.
    apply (path_leaves st 20). unfold max_iterations. lia.
Qed.

Lemma capped_walks_on_cycle :
  find_root_document looped 21 PR "PR-7" = Some (PR, "PR-7")
  ∧ get_path_to_document looped 21 PR "PR-7"
    = Some (list_to_set [doc_key PR "PR-7"; doc_key RFQ "RFQ-7"]).
Proof. split; vm_compute; reflexivity. Qed.

(** On the two documents that name each other as source, the backward walk
    of [get_linked_documents_with_counts] is still inside its loop after any
    number of iterations, from either document. *)
Lemma backward_chain_step_loops fuel : ∀ chain,
  run_loop (backward_chain_step looped) fuel (chain, Some RFQ, Some "RFQ-7") = None
  ∧ run_loop (backward_chain_step looped) fuel (chain, Some PR, Some "PR-7") = None.
Proof.
  induction fuel as [|fuel IH]; intros chain; [split; reflexivity|].
  split.
  - change (run_loop (backward_chain_step looped) fuel
              (chain ++ [(RFQ, "RFQ-7")], Some PR, Some "PR-7") = None).
    apply IH.
  - change (run_loop (backward_chain_step looped) fuel
              (chain ++ [(PR, "PR-7")], Some RFQ, Some "RFQ-7") = None).
    apply IH.
Qed.

(** C9: the backward walk of [get_linked_documents_with_counts] has no cap
    on its iterations.  Called on a document of a two-document cycle of
    source pointers, it never leaves its loop: no number of iterations
    produces a result. *)
Theorem backward_chain_walk_never_returns :
  ∀ fuel, backward_chain_of looped fuel PR "PR-7" = None.
Proof.
  intros fuel.
  change (run_loop (backward_chain_step looped) fuel
            ([], Some RFQ, Some "RFQ-7") = None).
  apply backward_chain_step_loops.
Qed.

End Walks.

(** ** Step order (validate_step_order) *)

Section StepOrder.
Import Workflow Scenario.

Lemma previous_step_from_index dt steps c l2 mid : ∀ visited,
  steps = visited ++ mid ++ c :: l2 →
  (∀ s, s ∈ mid → doctype_name s ≠ dt) →
  doctype_name c = dt →
  (0 < length visited + length mid)%nat →
  previous_step_from dt steps (length visited) (mid ++ c :: l2)
  = steps !! (length visited + length mid - 1)%nat.
Proof.
  induction mid as [|s mid IH]; intros visited Hsteps Hmid Hc Hpos; simpl.
  - rewrite (bool_decide_eq_true_2 _ Hc).
    rewrite bool_decide_eq_true_2 by (simpl in Hpos; lia).
    simpl. f_equal. lia.
  - rewrite bool_decide_eq_false_2 by (apply Hmid; left).
    simpl. specialize (IH (visited ++ [s])).
    rewrite length_app in IH. simpl in IH.
    replace (length visited + 1)%nat with (S (length visited)) in IH by lia.
    rewrite IH.
    + f_equal. lia.
    + rewrite <- app_assoc. exact Hsteps.
    + intros s' Hs'. apply Hmid. right. exact Hs'.
    + exact Hc.
    + lia.
Qed.

(** When the step of a doctype is preceded by [p] in the ordered list, and
    no earlier step has the doctype, [get_current_step] finds that step and
    [get_previous_step] finds [p]. *)
Lemma get_previous_step_prior flow dt l1 p c l2 :
  get_flow_steps flow = l1 ++ p :: c :: l2 →
  (∀ s, s ∈ l1 ++ [p] → doctype_name s ≠ dt) →
  doctype_name c = dt →
  get_current_step dt flow = Some c ∧ get_previous_step dt flow = Some p.
Proof.
  intros Hsteps Hnone Hc. split.
  - unfold get_current_step. rewrite Hsteps.
    replace (l1 ++ p :: c :: l2) with ((l1 ++ [p]) ++ c :: l2)
      by (rewrite <- app_assoc; reflexivity).
    generalize dependent (l1 ++ [p]). intros pre Hpre.
    induction pre as [|s pre IH]; simpl.
    + rewrite (bool_decide_eq_true_2 _ Hc). reflexivity.
    + rewrite bool_decide_eq_false_2 by (apply Hpre; left).
      apply IH. intros s' Hs'. apply Hpre. right. exact Hs'.
  - unfold get_previous_step. rewrite Hsteps.
    pose proof (previous_step_from_index dt (l1 ++ p :: c :: l2) c l2 (l1 ++ [p]) []) as H.
    simpl in H. rewrite <- app_assoc in H. simpl in H. rewrite H.
    + rewrite length_app. simpl.
      replace (length l1 + 1 - 1)%nat with (length l1 + 0)%nat by lia.
      rewrite lookup_app_r by lia.
      replace (length l1 + 0 - length l1)%nat with 0%nat by lia. reflexivity.
    + reflexivity.
    + exact Hnone.
    + exact Hc.
    + rewrite length_app. simpl. lia.
Qed.

(** C5: for a document whose step in the active flow requires a source,
    [validate_step_order] rejects when exactly one of the two source fields
    is set, passes when both are unset, and, when both are set and the step
    has a step immediately before it in the ordered list, passes exactly
    when the source doctype is the doctype of that prior step and otherwise
    rejects with the expected and the actual doctype. *)
Theorem validate_step_order_source_pair flows flow cur doc :
  get_active_flow flows = Some flow →
  get_current_step (doctype doc) flow = Some cur →
  requires_source cur = true →
  (truthy (procurement_source_doctype doc) ≠ truthy (procurement_source_name doc) →
   validate_step_order flows doc = Reject BothOrNeither)
  ∧ (truthy (procurement_source_doctype doc) = false →
     truthy (procurement_source_name doc) = false →
     validate_step_order flows doc = Pass)
  ∧ (truthy (procurement_source_doctype doc) = true →
     truthy (procurement_source_name doc) = true →
     ∀ l1 prior l2,
       get_flow_steps flow = l1 ++ prior :: cur :: l2 →
       (∀ s, s ∈ l1 ++ [prior] → doctype_name s ≠ doctype doc) →
       (procurement_source_doctype doc = Some (doctype_name prior) →
        validate_step_order flows doc = Pass)
       ∧ (procurement_source_doctype doc ≠ Some (doctype_name prior) →
          validate_step_order flows doc
          = Reject (InvalidSource (doctype_name prior)
                      (default "" (procurement_source_doctype doc))))).
Proof.
  intros Hflow Hcur Hreq. unfold validate_step_order.
  rewrite Hflow, Hcur, Hreq.
  destruct (truthy (procurement_source_doctype doc)) eqn:Hd;
    destruct (truthy (procurement_source_name doc)) eqn:Hn; simpl;
    (split; [|split]); try congruence.
  intros _ _ l1 prior l2 Hsteps Hnone.
  assert (Hc : doctype_name cur = doctype doc).
  { unfold get_current_step in Hcur. apply find_some in Hcur as [_ Hc].
    apply bool_decide_eq_true_1 in Hc. exact Hc. }
  destruct (get_previous_step_prior flow (doctype doc) l1 prior cur l2 Hsteps Hnone Hc)
    as [_ ->].
  split; intros Hsrc.
  - rewrite bool_decide_eq_false_2 by (intros H; apply H; exact Hsrc). reflexivity.
  - rewrite bool_decide_eq_true_2 by exact Hsrc. reflexivity.
Qed.

(** A new requisition made from a Material Request in the standard flow. *)
Lemma validate_step_order_source_pair_witness :
  (truthy (procurement_source_doctype pr_new) ≠ truthy (procurement_source_name pr_new) →
   validate_step_order flows pr_new = Reject BothOrNeither)
  ∧ (truthy (procurement_source_doctype pr_new) = false →
     truthy (procurement_source_name pr_new) = false →
     validate_step_order flows pr_new = Pass)
  ∧ (truthy (procurement_source_doctype pr_new) = true →
     truthy (procurement_source_name pr_new) = true →
     ∀ l1 prior l2,
       get_flow_steps flow = l1 ++ prior :: mkStep 2 PR true :: l2 →
       (∀ s, s ∈ l1 ++ [prior] → doctype_name s ≠ doctype pr_new) →
       (procurement_source_doctype pr_new = Some (doctype_name prior) →
        validate_step_order flows pr_new = Pass)
       ∧ (procurement_source_doctype pr_new ≠ Some (doctype_name prior) →
          validate_step_order flows pr_new
          = Reject (InvalidSource (doctype_name prior)
                      (default "" (procurement_source_doctype pr_new))))).
Proof.
  apply (validate_step_order_source_pair flows flow (mkStep 2 PR true) pr_new);
    reflexivity.
Defined.

(** The three outcomes on the standard flow. *)
Lemma validate_step_order_examples :
  validate_step_order flows pr_new = Pass
  ∧ validate_step_order flows
      (mkDoc PR "" 0 true (Some MR) None None [] [] []) = Reject BothOrNeither
  ∧ validate_step_order flows
      (mkDoc PR "" 0 true None None None [] [] []) = Pass
  ∧ validate_step_order flows
      (mkDoc PR "" 0 true (Some SQ) (Some "SQ-1") None [] [] [])
    = Reject (InvalidSource MR SQ).
Proof. repeat split; vm_compute; reflexivity. Qed.

End StepOrder.

(** ** Sorting *)

Section SortingFacts.
Context {A : Type} (le : A → A → bool).
Hypothesis le_total : ∀ x y, le x y = true ∨ le y x = true.
Hypothesis le_trans : ∀ x y z, le x y = true → le y z = true → le x z = true.

Lemma insert_sorted_elem x y l : y ∈ insert_sorted le x l ↔ y = x ∨ y ∈ l.
Proof.
  induction l as [|z l IH]; simpl.
  - rewrite list_elem_of_singleton. split; [left; assumption | intros [H|H]; [exact H | inversion H]].
  - destruct (le x z).
    + rewrite elem_of_cons. reflexivity.
    + rewrite !elem_of_cons, IH. tauto.
Qed.

Lemma sorted_by_elem y l : y ∈ sorted_by le l ↔ y ∈ l.
Proof.
  unfold sorted_by. induction l as [|x l IH]; simpl; [reflexivity|].
  rewrite insert_sorted_elem, elem_of_cons, IH. reflexivity.
Qed.

Lemma insert_sorted_sorted x l :
  StronglySorted (λ a b, le a b = true) l →
  StronglySorted (λ a b, le a b = true) (insert_sorted le x l).
Proof.
  induction l as [|z l IH]; intros Hs; simpl.
  - constructor; constructor.
  - apply StronglySorted_inv in Hs as [Hl Hz].
    destruct (le x z) eqn:Hxz.
    + constructor; [constructor; assumption|].
      constructor; [exact Hxz|].
      eapply Forall_impl; [exact Hz|]. intros b Hb. simpl in Hb. eapply le_trans; eassumption.
    + constructor; [apply IH; exact Hl|].
      apply Forall_forall. intros b Hb. apply insert_sorted_elem in Hb as [->|Hb].
      * destruct (le_total x z) as [H|H]; [congruence | exact H].
      * rewrite Forall_forall in Hz. apply Hz. exact Hb.
Qed.

Lemma sorted_by_sorted l : StronglySorted (λ a b, le a b = true) (sorted_by le l).
Proof.
  unfold sorted_by. induction l as [|x l IH]; simpl; [constructor|].
  apply insert_sorted_sorted. exact IH.
Qed.

(** The first element of the sorted list is in the list and below every
    element of it; the sorted list is empty only when the list is. *)
Lemma sorted_by_head l :
  match head (sorted_by le l) with
  | Some x => x ∈ l ∧ ∀ y, y ∈ l → le x y = true
  | None => l = []
  end.
Proof.
  pose proof (sorted_by_sorted l) as Hs.
  pose proof (λ y, sorted_by_elem y l) as He.
  destruct (sorted_by le l) as [|x s]; simpl.
  - destruct l as [|y l]; [reflexivity|].
    exfalso. destruct (He y) as [_ H]. specialize (H (list_elem_of_here _ _)). inversion H.
  - split; [apply He; left|].
    intros y Hy. apply He in Hy. apply elem_of_cons in Hy as [->|Hy].
    + destruct (le_total x x); assumption.
    + apply StronglySorted_inv in Hs as [_ Hx].
      rewrite Forall_forall in Hx. apply Hx. exact Hy.
Qed.
End SortingFacts.

(** ** The applicable supplier rule *)

Section ApplicableRule.
Import SupplierRule Scenario.

Lemma rule_le_total x y : rule_le x y = true ∨ rule_le y x = true.
Proof.
  unfold rule_le.
  destruct (decide (priority x < priority y
                    ∨ priority x = priority y ∧ amount_from x ≤ amount_from y)) as [H|H].
  - left. apply bool_decide_eq_true_2. exact H.
  - right. apply bool_decide_eq_true_2. lia.
Qed.

Lemma rule_le_trans x y z :
  rule_le x y = true → rule_le y z = true → rule_le x z = true.
Proof.
  unfold rule_le. intros H1 H2.
  apply bool_decide_eq_true_1 in H1. apply bool_decide_eq_true_1 in H2.
  apply bool_decide_eq_true_2. lia.
Qed.

(** C8: [get_applicable_rule] returns a rule that is active and whose
    half-open range [amount_from, amount_to) holds the amount, with the
    lowest priority among such rules and, among those of that priority, the
    lowest [amount_from]; it returns nothing exactly when no active rule's
    range holds the amount.  With rules for [100,1000) and [1000,5000), the
    amount 1000 selects the second. *)
Theorem get_applicable_rule_lowest rules total_amount :
  match get_applicable_rule rules total_amount with
  | Some r =>
      r ∈ rules
      ∧ is_active r = true
      ∧ amount_from r ≤ total_amount < amount_to r
      ∧ ∀ r', r' ∈ rules → is_active r' = true →
              amount_from r' ≤ total_amount < amount_to r' →
              priority r < priority r'
              ∨ (priority r = priority r' ∧ amount_from r ≤ amount_from r')
  | None =>
      ∀ r', r' ∈ rules → is_active r' = true →
            ¬ (amount_from r' ≤ total_amount < amount_to r')
  end
  ∧ get_applicable_rule [rule_low; rule_high] 1000 = Some rule_high
  ∧ get_applicable_rule [rule_low; rule_high] 999 = Some rule_low
  ∧ get_applicable_rule [rule_low; rule_high] 5000 = None.
Proof.
  split; [|repeat split; vm_compute; reflexivity].
  unfold get_applicable_rule.
  pose proof (sorted_by_head rule_le rule_le_total rule_le_trans
                (filter (covers total_amount) rules)) as H.
  destruct (head _) as [r|].
  - destruct H as [Hin Hmin]. apply list_elem_of_filter in Hin as [(Ha & Hf & Ht) Hin].
    split; [exact Hin|]. split; [exact Ha|]. split; [lia|].
    intros r' Hin' Ha' Hr'.
    assert (Hle : rule_le r r' = true).
    { apply Hmin. apply list_elem_of_filter. split; [|exact Hin'].
      unfold covers. split; [exact Ha'|]. lia. }
    unfold rule_le in Hle. apply bool_decide_eq_true_1 in Hle. exact Hle.
  - intros r' Hin' Ha' Hr'.
    assert (Hf : r' ∈ filter (covers total_amount) rules).
    { apply list_elem_of_filter. split; [|exact Hin']. unfold covers. split; [exact Ha'|]. lia. }
    rewrite H in Hf. inversion Hf.
Qed.

End ApplicableRule.

(** * Further properties of the modelled code *)

(** ** The stored ordered quantities (update_rfq_ordered_qty) *)

Section OrderedQty.
Import PoControl Ledger.

Lemma get_doc_save_other st d dt n :
  ¬ has_key dt n d → get_doc (save st d) dt n = get_doc st dt n.
Proof.
  intros Hk. unfold get_doc, save. induction st as [|x st IH]; [reflexivity|].
  rewrite fmap_cons. simpl.
  destruct (bool_decide_reflect (has_key (doctype d) (name d) x)) as [Hx|Hx].
  - rewrite (bool_decide_eq_false_2 _ Hk).
    rewrite bool_decide_eq_false_2; [exact IH|].
    intros [H1 H2]. apply Hk. destruct Hx as [H3 H4]. split; congruence.
  - destruct (bool_decide (has_key dt n x)); [reflexivity | exact IH].
Qed.

Lemma save_keys st d d0 :
  get_doc st (doctype d) (name d) = Some d0 → key <$> save st d = key <$> st.
Proof.
  intros _. unfold save. induction st as [|x st IH]; [reflexivity|].
  rewrite !fmap_cons, IH. f_equal.
  case_bool_decide as Hx; [|reflexivity].
  destruct Hx as [H1 H2]. unfold key. congruence.
Qed.

Lemma update_item_code action q i : item_code (update_item action q i) = item_code i.
Proof. reflexivity. Qed.

Lemma find_item_update_first c c' f l :
  (∀ i, item_code (f i) = item_code i) →
  find_item c (update_first c' f l)
  = if bool_decide (c' = c) then f <$> find_item c l else find_item c l.
Proof.
  intros Hf. unfold find_item. induction l as [|i l IH]; simpl.
  - destruct (bool_decide (c' = c)); reflexivity.
  - destruct (bool_decide_reflect (item_code i = c')) as [Hi|Hi]; simpl.
    + rewrite Hf.
      destruct (bool_decide_reflect (c' = c)) as [<-|Hc].
      * rewrite !bool_decide_eq_true_2 by exact Hi. reflexivity.
      * rewrite bool_decide_eq_false_2 by congruence. reflexivity.
    + destruct (bool_decide_reflect (item_code i = c)) as [Hic|Hic].
      * destruct (bool_decide_reflect (c' = c)) as [<-|Hc]; [contradiction | reflexivity].
      * exact IH.
Qed.

(** The quantities of the lines of one item code, in order. *)
Lemma find_item_fold action c pos : ∀ rfq_items,
  find_item c (foldl (apply_po_item action) rfq_items pos)
  = (λ i, foldl (λ i q, update_item action q i) i
            ((λ p, flt (qty p)) <$> filter (λ p, item_code p = c) pos))
    <$> find_item c rfq_items.
Proof.
  induction pos as [|p pos IH]; intros rfq_items; simpl.
  - destruct (find_item c rfq_items); reflexivity.
  - rewrite IH. unfold apply_po_item.
    rewrite find_item_update_first by (intros i; reflexivity).
    rewrite filter_cons.
    destruct (decide (item_code p = c)) as [Hp|Hp].
    + rewrite (bool_decide_eq_true_2 _ Hp).
      destruct (find_item c rfq_items); reflexivity.
    + rewrite (bool_decide_eq_false_2 _ Hp). reflexivity.
Qed.

Lemma fold_add_item qs : ∀ i,
  let i' := foldl (λ i q, update_item "add" q i) i qs in
  item_code i' = item_code i ∧ qty i' = qty i
  ∧ flt (ordered_qty i') = foldl Z.add (flt (ordered_qty i)) qs
  ∧ (qs ≠ [] → remaining_qty i' = Some (flt (qty i') - flt (ordered_qty i'))).
Proof.
  induction qs as [|q qs IH]; intros i; cbn [foldl].
  - repeat split; contradiction.
  - destruct (IH (update_item "add" q i)) as (Hc & Hq & Ho & Hr).
    repeat split; [exact Hc | exact Hq | exact Ho |].
    intros _. destruct qs as [|q' qs]; [reflexivity|]. apply Hr. discriminate.
Qed.

Lemma fold_subtract_item qs : ∀ i,
  let i' := foldl (λ i q, update_item "subtract" q i) i qs in
  item_code i' = item_code i ∧ qty i' = qty i
  ∧ (qs ≠ [] → 0 ≤ flt (ordered_qty i')
               ∧ remaining_qty i' = Some (flt (qty i') - flt (ordered_qty i'))).
Proof.
  induction qs as [|q qs IH]; intros i; cbn [foldl].
  - repeat split; contradiction.
  - destruct (IH (update_item "subtract" q i)) as (Hc & Hq & Hr).
    split; [exact Hc|]. split; [exact Hq|]. intros _.
    destruct qs as [|q' qs]; [simpl; split; [lia | reflexivity]|].
    apply Hr. discriminate.
Qed.

End OrderedQty.

Section OrderedQtyStore.
Import PoControl Ledger Scenario.

(** On the path that reaches the RFQ, [update_rfq_ordered_qty] saves the RFQ
    with its lines folded over the lines of the Purchase Order. *)
Lemma update_rfq_ordered_qty_reaches st po sq rfq action :
  doctype po = "Purchase Order" →
  procurement_source_doctype po = Some "Supplier Quotation" →
  get_doc_opt st "Supplier Quotation" (procurement_source_name po) = Some sq →
  from_rfq sq →
  get_doc_opt st "Request for Quotation" (procurement_source_name sq) = Some rfq →
  update_rfq_ordered_qty st po action
  = save st (set_items rfq (foldl (apply_po_item action) (items rfq) (items po))).
Proof.
  intros Hdt Hsd Hsq [Hd Hn] Hrfq. unfold update_rfq_ordered_qty.
  rewrite bool_decide_eq_false_2 by (intros H; apply H; exact Hdt).
  rewrite bool_decide_eq_false_2 by (intros H; apply H; exact Hsd).
  rewrite Hsq.
  rewrite bool_decide_eq_false_2 by (intros H; apply H; exact Hd).
  rewrite Hn, Hrfq. reflexivity.
Qed.

Lemma get_doc_opt_key st dt n d :
  get_doc_opt st dt n = Some d → doctype d = dt ∧ n = Some (name d).
Proof.
  destruct n as [n|]; [|discriminate]. simpl. intros H.
  apply get_doc_key in H as [H1 H2]. split; congruence.
Qed.

(** Whatever the action, the hook keeps the keys of the store in place,
    leaves every document other than a Request for Quotation as it is, and
    leaves of every document every field but its lines, and of every line
    its item code and quantity: nothing but [ordered_qty] and
    [remaining_qty] of the lines of a Request for Quotation can change. *)
Theorem update_rfq_ordered_qty_frame st po action :
  key <$> update_rfq_ordered_qty st po action = key <$> st
  ∧ (∀ dt n, dt ≠ "Request for Quotation" →
       get_doc (update_rfq_ordered_qty st po action) dt n = get_doc st dt n)
  ∧ (∀ dt n d, get_doc st dt n = Some d →
       ∃ d', get_doc (update_rfq_ordered_qty st po action) dt n = Some d'
             ∧ d' = set_items d (items d')
             ∧ doctype d' = doctype d ∧ name d' = name d
             ∧ islocal d' = islocal d
             ∧ supplier d' = supplier d
             ∧ suppliers d' = suppliers d
             ∧ docstatus d' = docstatus d
             ∧ procurement_source_doctype d' = procurement_source_doctype d
             ∧ procurement_source_name d' = procurement_source_name d
             ∧ procurement_links d' = procurement_links d
             ∧ (item_code <$> items d') = (item_code <$> items d)
             ∧ (qty <$> items d') = (qty <$> items d)).
Proof.
  assert (Hcase : update_rfq_ordered_qty st po action = st
                  ∨ ∃ rfq l, get_doc st "Request for Quotation" (name rfq) = Some rfq
                             ∧ doctype rfq = "Request for Quotation"
                             ∧ (item_code <$> l) = (item_code <$> items rfq)
                             ∧ (qty <$> l) = (qty <$> items rfq)
                             ∧ update_rfq_ordered_qty st po action
                               = save st (set_items rfq l)).
  { unfold update_rfq_ordered_qty.
    case_bool_decide; [left; reflexivity|].
    case_bool_decide; [left; reflexivity|].
    destruct (get_doc_opt st "Supplier Quotation" _) as [sq|]; [|left; reflexivity].
    destruct (_ || _); [left; reflexivity|].
    destruct (get_doc_opt st "Request for Quotation" _) as [rfq|] eqn:Hrfq;
      [|left; reflexivity].
    right. exists rfq, (foldl (apply_po_item action) (items rfq) (items po)).
    destruct (get_doc_opt_key _ _ _ _ Hrfq) as [Hdt Hn].
    rewrite Hn in Hrfq. simpl in Hrfq.
    split; [exact Hrfq|]. split; [exact Hdt|].
    assert (Hpres : ∀ pos l, (item_code <$> foldl (apply_po_item action) l pos)
                             = (item_code <$> l)
                             ∧ (qty <$> foldl (apply_po_item action) l pos) = (qty <$> l)).
    { clear. induction pos as [|p pos IH]; intros l; [split; reflexivity|].
      cbn [foldl]. destruct (IH (apply_po_item action l p)) as [-> ->].
      unfold apply_po_item. set (f := update_item action (flt (qty p))).
      assert (Hf : ∀ i, item_code (f i) = item_code i ∧ qty (f i) = qty i)
        by (intros i; split; reflexivity).
      clearbody f.
      induction l as [|i l IHl]; [split; reflexivity|]. simpl.
      case_bool_decide; rewrite !fmap_cons.
      - destruct (Hf i) as [-> ->]. split; reflexivity.
      - destruct IHl as [-> ->]. split; reflexivity. }
    destruct (Hpres (items po) (items rfq)) as [H1 H2].
    split; [exact H1|]. split; [exact H2|]. reflexivity. }
  destruct Hcase as [->|(rfq & l & Hrfq & Hdt & Hc & Hq & ->)].
  - split; [reflexivity|]. split; [reflexivity|].
    intros dt n d Hd. exists d.
    repeat split; try assumption. destruct d; reflexivity.
  - split; [|split].
    + apply (save_keys st (set_items rfq l) rfq). simpl. rewrite Hdt. exact Hrfq.
    + intros dt n Hne. apply get_doc_save_other. intros [H _]. simpl in H. congruence.
    + intros dt n d Hd.
      destruct (decide (has_key dt n (set_items rfq l))) as [[H1 H2]|Hk].
      * simpl in H1, H2. subst dt n. rewrite Hdt in Hd. rewrite Hrfq in Hd.
        injection Hd as <-. exists (set_items rfq l). split.
        -- apply (get_doc_save st rfq (set_items rfq l)). simpl. rewrite Hdt. exact Hrfq.
        -- simpl. repeat split; assumption.
      * exists d. rewrite get_doc_save_other by exact Hk.
        repeat split; try assumption. destruct d; reflexivity.
Qed.

Lemma saved_rfq_lookup st rfq l :
  get_doc st "Request for Quotation" (name rfq) = Some rfq →
  get_doc (save st (set_items rfq l)) "Request for Quotation" (name rfq)
  = Some (set_items rfq l).
Proof.
  intros Hrfq. destruct (get_doc_key _ _ _ _ Hrfq) as [Hdt _].
  pose proof (get_doc_save st rfq (set_items rfq l)) as H. simpl in H.
  rewrite Hdt in H. apply H. exact Hrfq.
Qed.

(** On submit, the first RFQ line of each item code has the quantities the
    Purchase Order asks of that code added to its stored ordered quantity,
    one after the other in line order, and its remaining quantity is
    recomputed from the result. *)
Theorem on_po_submit_adds st po sq rfq :
  doctype po = "Purchase Order" →
  procurement_source_doctype po = Some "Supplier Quotation" →
  get_doc_opt st "Supplier Quotation" (procurement_source_name po) = Some sq →
  from_rfq sq →
  get_doc_opt st "Request for Quotation" (procurement_source_name sq) = Some rfq →
  ∃ rfq', get_doc (on_po_submit st po) "Request for Quotation" (name rfq) = Some rfq'
    ∧ ∀ c i, find_item c (items rfq) = Some i →
        ∃ i', find_item c (items rfq') = Some i'
              ∧ qty i' = qty i
              ∧ flt (ordered_qty i')
                = foldl Z.add (flt (ordered_qty i)) (line_quantities c po)
              ∧ (Exists (λ p, item_code p = c) (items po) →
                 remaining_qty i' = Some (flt (qty i) - flt (ordered_qty i'))).
Proof.
  intros Hdt Hsd Hsq Hfrom Hrfq. unfold on_po_submit.
  rewrite (update_rfq_ordered_qty_reaches st po sq rfq) by assumption.
  destruct (get_doc_opt_key _ _ _ _ Hrfq) as [Hrdt Hn].
  rewrite Hn in Hrfq. simpl in Hrfq.
  eexists. split; [apply saved_rfq_lookup; exact Hrfq|].
  intros c i Hi. simpl items. rewrite find_item_fold, Hi. simpl.
  eexists. split; [reflexivity|].
  destruct (fold_add_item ((λ p, flt (qty p)) <$> filter (λ p, item_code p = c) (items po)) i)
    as (_ & Hq & Ho & Hr). cbv zeta in Hq, Ho, Hr.
  split; [exact Hq|]. split; [exact Ho|].
  intros Hex. rewrite Hr, Hq; [reflexivity|].
  apply Exists_exists in Hex as (p & Hin & Hp).
  assert (Hf : p ∈ filter (λ p, item_code p = c) (items po))
    by (apply list_elem_of_filter; split; assumption).
  destruct (filter _ (items po)); [inversion Hf | discriminate].
Qed.

(** PO-C, which asks for 30 and for 20 of ITEM-1 on two lines, submitted
    when 60 are already ordered. *)
Lemma on_po_submit_adds_witness :
  ∃ rfq', get_doc (on_po_submit (after_a ++ [po_split]) po_split)
            "Request for Quotation" (name rfq1_ordered) = Some rfq'
    ∧ ∀ c i, find_item c (items rfq1_ordered) = Some i →
        ∃ i', find_item c (items rfq') = Some i'
              ∧ qty i' = qty i
              ∧ flt (ordered_qty i')
                = foldl Z.add (flt (ordered_qty i)) (line_quantities c po_split)
              ∧ (Exists (λ p, item_code p = c) (items po_split) →
                 remaining_qty i' = Some (flt (qty i) - flt (ordered_qty i'))).
Proof.
  apply (on_po_submit_adds (after_a ++ [po_split]) po_split sq1_linked rfq1_ordered);
    try reflexivity.
  split; reflexivity.
Defined.

(** On cancel, the first RFQ line of each item code the Purchase Order
    carries ends with an ordered quantity that is not negative, and with
    its remaining quantity recomputed from it. *)
Theorem on_po_cancel_floors st po sq rfq :
  doctype po = "Purchase Order" →
  procurement_source_doctype po = Some "Supplier Quotation" →
  get_doc_opt st "Supplier Quotation" (procurement_source_name po) = Some sq →
  from_rfq sq →
  get_doc_opt st "Request for Quotation" (procurement_source_name sq) = Some rfq →
  ∃ rfq', get_doc (on_po_cancel st po) "Request for Quotation" (name rfq) = Some rfq'
    ∧ ∀ c i, find_item c (items rfq) = Some i →
        Exists (λ p, item_code p = c) (items po) →
        ∃ i', find_item c (items rfq') = Some i'
              ∧ qty i' = qty i
              ∧ 0 ≤ flt (ordered_qty i')
              ∧ remaining_qty i' = Some (flt (qty i) - flt (ordered_qty i')).
Proof.
  intros Hdt Hsd Hsq Hfrom Hrfq. unfold on_po_cancel.
  rewrite (update_rfq_ordered_qty_reaches st po sq rfq) by assumption.
  destruct (get_doc_opt_key _ _ _ _ Hrfq) as [Hrdt Hn].
  rewrite Hn in Hrfq. simpl in Hrfq.
  eexists. split; [apply saved_rfq_lookup; exact Hrfq|].
  intros c i Hi Hex. simpl items. rewrite find_item_fold, Hi. simpl.
  eexists. split; [reflexivity|].
  destruct (fold_subtract_item
              ((λ p, flt (qty p)) <$> filter (λ p, item_code p = c) (items po)) i)
    as (_ & Hq & Hr). cbv zeta in Hq, Hr.
  split; [exact Hq|]. rewrite <- Hq. apply Hr.
  apply Exists_exists in Hex as (p & Hin & Hp).
  assert (Hf : p ∈ filter (λ p, item_code p = c) (items po))
    by (apply list_elem_of_filter; split; assumption).
  destruct (filter _ (items po)); [inversion Hf | discriminate].
Qed.

Lemma on_po_cancel_floors_witness :
  ∃ rfq', get_doc (on_po_cancel with_drafts po_a) "Request for Quotation" (name rfq1)
          = Some rfq'
    ∧ ∀ c i, find_item c (items rfq1) = Some i →
        Exists (λ p, item_code p = c) (items po_a) →
        ∃ i', find_item c (items rfq') = Some i'
              ∧ qty i' = qty i
              ∧ 0 ≤ flt (ordered_qty i')
              ∧ remaining_qty i' = Some (flt (qty i) - flt (ordered_qty i')).
Proof.
  apply (on_po_cancel_floors with_drafts po_a sq1 rfq1); try reflexivity.
  split; reflexivity.
Defined.

End OrderedQtyStore.

(** ** The dynamic total *)

Section DynamicTotal.
Import PoControl Ledger DynamicGate Scenario.

Lemma add_ordered_items c l : ∀ ordered_qtys : gmap string Z,
  default 0 (foldl add_ordered ordered_qtys l !! c)
  = foldl Z.add (default 0 (ordered_qtys !! c))
      ((λ i, flt (qty i)) <$> filter (λ i, item_code i = c) l).
Proof.
  induction l as [|i l IH]; intros ordered_qtys; cbn [foldl]; [reflexivity|].
  rewrite IH, filter_cons. unfold add_ordered at 1.
  destruct (decide (item_code i = c)) as [->|Hne].
  - rewrite lookup_insert_eq. reflexivity.
  - rewrite lookup_insert_ne by exact Hne. reflexivity.
Qed.

Lemma sum_pos_total st c ds : ∀ ordered_qtys : gmap string Z,
  Forall (λ d, get_doc st "Purchase Order" (name d) = Some d) ds →
  default 0 (sum_pos st ordered_qtys (name <$> ds) !! c)
  = foldl Z.add (default 0 (ordered_qtys !! c)) (ds ≫= line_quantities c).
Proof.
  induction ds as [|d ds IH]; intros ordered_qtys Hall; [reflexivity|].
  apply Forall_cons in Hall as [Hd Hall].
  rewrite fmap_cons. cbn [sum_pos]. rewrite Hd, IH by exact Hall.
  rewrite add_ordered_items, bind_cons, foldl_app. reflexivity.
Qed.

(** In a store with unique keys, what
    [calculate_rfq_ordered_quantities_dynamic] holds for an item code is
    the running total of that code's quantities over the non-cancelled
    Purchase Orders made from the submitted Supplier Quotations of the
    RFQ, order after order and line after line; an item code without
    entry stands for 0. *)
Theorem dynamic_total_is_sum st rfq_name c :
  store_wf st →
  default 0 (calculate_rfq_ordered_quantities_dynamic st rfq_name !! c)
  = running_total (quantities_via_quotations st rfq_name c).
Proof.
  intros Hwf.
  unfold calculate_rfq_ordered_quantities_dynamic, quantities_via_quotations.
  destruct (name <$> filter (submitted_sq_of rfq_name) st) as [|sq sqs] eqn:Hsqs.
  - rewrite lookup_empty. rewrite (filter_none (po_of_sqs []) st); [reflexivity|].
    intros Hex. apply Exists_exists in Hex as (d & _ & _ & _ & Hin & _). inversion Hin.
  - rewrite sum_pos_total.
    + rewrite lookup_empty. reflexivity.
    + apply Forall_forall. intros d Hd.
      apply list_elem_of_filter in Hd as [[Hdt _] Hin].
      rewrite <- Hdt. apply get_doc_in; assumption.
Qed.

(** The two orders of RFQ-1, for 60 and for 50. *)
Lemma dynamic_total_is_sum_witness :
  default 0 (calculate_rfq_ordered_quantities_dynamic after_b "RFQ-1" !! "ITEM-1")
  = running_total (quantities_via_quotations after_b "RFQ-1" "ITEM-1").
Proof.
  apply (dynamic_total_is_sum after_b "RFQ-1" "ITEM-1").
  unfold store_wf. compute_done.
Defined.

(** ** The supplier of a Purchase Order (validate_supplier_matches_sq) *)

(** For a Purchase Order made from a stored Supplier Quotation: when the
    hook passes, the order it leaves carries the quotation's supplier and
    is otherwise the order it was given; it rejects exactly when the order
    has a supplier set that differs from the quotation's, and then leaves
    the order untouched. *)
Theorem validate_supplier_matches_sq_post st doc sq :
  doctype doc = "Purchase Order" →
  procurement_source_doctype doc = Some "Supplier Quotation" →
  truthy (procurement_source_name doc) = true →
  get_doc_opt st "Supplier Quotation" (procurement_source_name doc) = Some sq →
  let '(doc', r) := validate_supplier_matches_sq st doc in
  doc' = set_supplier doc (supplier doc')
  ∧ (r = Pass → supplier doc' = supplier sq)
  ∧ (r ≠ Pass ↔ truthy (supplier doc) = true ∧ supplier doc ≠ supplier sq)
  ∧ (r ≠ Pass →
     doc' = doc ∧ r = Reject (SupplierMismatch (supplier sq) (supplier doc))).
Proof.
  intros Hdt Hsd Hsn Hsq. unfold validate_supplier_matches_sq.
  rewrite bool_decide_eq_false_2 by (intros H; apply H; exact Hdt).
  rewrite bool_decide_eq_false_2 by (intros H; apply H; exact Hsd).
  rewrite Hsn, Hsq. simpl negb. cbv iota.
  destruct (truthy (supplier doc)) eqn:Ht; simpl negb; cbv iota.
  - case_bool_decide as Hne.
    + split; [destruct doc; reflexivity|]. split; [discriminate|].
      split; [split; [intros _; split; [reflexivity | exact Hne] | discriminate]|].
      intros _. split; reflexivity.
    + split; [destruct doc; reflexivity|]. split; [intros _; exact Hne|].
      split; [split; [intros H; contradiction | intros [_ H]; contradiction]|].
      intros H. contradiction.
  - split; [reflexivity|]. split; [reflexivity|].
    split; [split; [intros H; contradiction | intros [H _]; discriminate]|].
    intros H. contradiction.
Qed.

Lemma validate_supplier_matches_sq_post_witness :
  let '(doc', r) := validate_supplier_matches_sq quoted po_b in
  doc' = set_supplier po_b (supplier doc')
  ∧ (r = Pass → supplier doc' = supplier sq2)
  ∧ (r ≠ Pass ↔ truthy (supplier po_b) = true ∧ supplier po_b ≠ supplier sq2)
  ∧ (r ≠ Pass →
     doc' = po_b ∧ r = Reject (SupplierMismatch (supplier sq2) (supplier po_b))).
Proof.
  apply (validate_supplier_matches_sq_post quoted po_b sq2); reflexivity.
Defined.

End DynamicTotal.

(** ** Consumed totals and their breakdown *)

Section ConsumedMaps.
Import Workflow Queries Ledger Scenario.

Lemma fst_add_consumed doc_name (m : gmap string Consumed) item :
  fst <$> add_consumed doc_name m item = add_qty (fst <$> m) item.
Proof.
  unfold add_consumed, add_qty, Consumed in *. rewrite fmap_insert, lookup_fmap.
  destruct (m !! item_code item) as [[t docs]|] eqn:E; reflexivity.
Qed.

Lemma fst_fold_add_consumed doc_name l : ∀ m : gmap string Consumed,
  fst <$> foldl (add_consumed doc_name) m l = foldl add_qty (fst <$> m) l.
Proof.
  induction l as [|i l IH]; intros m; [reflexivity|].
  cbn [foldl]. rewrite IH, fst_add_consumed. reflexivity.
Qed.

Lemma consumed_quantities_fst st sdt sname tdt exclude_doc :
  get_consumed_quantities st sdt sname tdt exclude_doc
  = fst <$> get_consumed_quantities_detailed st sdt sname tdt exclude_doc.
Proof.
  unfold get_consumed_quantities, get_consumed_quantities_detailed.
  destruct (get_items_field_name tdt); [|rewrite fmap_empty; reflexivity].
  generalize (get_all_children st tdt sdt sname). intros names.
  assert (H : ∀ (m : gmap string Consumed),
            foldl (add_child_qty st tdt exclude_doc) (fst <$> m) names
            = fst <$> foldl (add_child st tdt exclude_doc) m names).
  { induction names as [|n names IH]; intros m; [reflexivity|].
    cbn [foldl]. rewrite <- IH. f_equal.
    unfold add_child_qty, add_child.
    destruct (excluded exclude_doc n); [reflexivity|].
    destruct (get_doc st tdt n); [|reflexivity].
    rewrite fst_fold_add_consumed. reflexivity. }
  rewrite <- H, fmap_empty. reflexivity.
Qed.

(** [get_consumed_quantities] holds, item code by item code, the totals of
    [get_consumed_quantities_detailed]: the same item codes with the same
    consumed quantity. *)
Theorem get_consumed_quantities_totals st sdt sname tdt exclude_doc :
  get_consumed_quantities st sdt sname tdt exclude_doc
  = fst <$> get_consumed_quantities_detailed st sdt sname tdt exclude_doc.
Proof. exact (consumed_quantities_fst st sdt sname tdt exclude_doc). Qed.

(** Every entry of the detailed dict satisfies [P]. *)
Lemma detailed_invariant (P : Consumed → Prop) st sdt sname tdt exclude_doc :
  P (0, []) →
  (∀ t docs n q, P (t, docs) → P (t + q, docs ++ [(n, q)])) →
  ∀ c e, get_consumed_quantities_detailed st sdt sname tdt exclude_doc !! c = Some e
         → P e.
Proof.
  intros P0 Pstep. unfold get_consumed_quantities_detailed.
  destruct (get_items_field_name tdt); [|intros c e H; rewrite lookup_empty in H; discriminate].
  generalize (get_all_children st tdt sdt sname). intros names.
  assert (Hitems : ∀ n l (m : gmap string Consumed),
            (∀ c e, m !! c = Some e → P e) →
            ∀ c e, foldl (add_consumed n) m l !! c = Some e → P e).
  { intros n l. induction l as [|i l IH]; intros m Hm; [exact Hm|].
    cbn [foldl]. apply IH. intros c e. unfold add_consumed.
    destruct (decide (item_code i = c)) as [->|Hne].
    - rewrite lookup_insert_eq. intros [= <-].
      destruct (m !! c) as [[t docs]|] eqn:Hc; simpl.
      + apply Pstep. exact (Hm c _ Hc).
      + apply (Pstep 0 []). exact P0.
    - rewrite lookup_insert_ne by exact Hne. apply Hm. }
  assert (Hnames : ∀ (m : gmap string Consumed),
            (∀ c e, m !! c = Some e → P e) →
            ∀ c e, foldl (add_child st tdt exclude_doc) m names !! c = Some e → P e).
  { induction names as [|n names IH]; intros m Hm; [exact Hm|].
    cbn [foldl]. apply IH. unfold add_child.
    destruct (excluded exclude_doc n); [exact Hm|].
    destruct (get_doc st tdt n); [|exact Hm].
    apply Hitems. exact Hm. }
  apply Hnames. intros c e H. rewrite lookup_empty in H. discriminate.
Qed.

(** In every entry of [get_consumed_quantities_detailed] the total is the
    running total of the quantities of the breakdown, in the order it
    lists them: the documents named in a quantity rejection add up, in
    that order, to its "already processed" figure. *)
Theorem detailed_total_is_breakdown_sum st sdt sname tdt exclude_doc c t docs :
  get_consumed_quantities_detailed st sdt sname tdt exclude_doc !! c = Some (t, docs) →
  t = running_total (snd <$> docs).
Proof.
  intros H.
  apply (detailed_invariant (λ e, e.1 = running_total (snd <$> e.2))
           st sdt sname tdt exclude_doc) in H; [exact H | reflexivity |].
  intros t' docs' n q Ht. cbn [fst snd] in *.
  unfold running_total in *. rewrite fmap_app, foldl_app, <- Ht. reflexivity.
Qed.

(** The two requisitions against MR-1, for 70 and for 20. *)
Lemma detailed_total_is_breakdown_sum_witness :
  90 = running_total (snd <$> [("PR-A", 70); ("PR-B", 20)]).
Proof.
  apply (detailed_total_is_breakdown_sum [mr1; pr_a; pr_b] MR "MR-1" PR None "ITEM-1").
  vm_compute. reflexivity.
Defined.

End ConsumedMaps.

(** ** Available quantities and the validation they announce *)

Section AvailableQuantities.
Import Workflow Queries Ledger Scenario.

Lemma find_code_none c (l : list Item) :
  c ∉ item_code <$> l → List.find (λ i, bool_decide (item_code i = c)) l = None.
Proof.
  induction l as [|i l IH]; intros Hc; [reflexivity|]. simpl.
  rewrite fmap_cons in Hc. apply not_elem_of_cons in Hc as [Hne Hc].
  rewrite bool_decide_eq_false_2 by congruence. apply IH. exact Hc.
Qed.

Lemma default_fst_total (o : option Consumed) :
  default 0 (fst <$> o) = (default (0, []) o).1.
Proof. destruct o as [[t docs]|]; reflexivity. Qed.

(** With no item code repeated, the dict built line by line holds for each
    code the value of its only line. *)
Lemma fold_insert_lookup {V} (v : Item → V) c l : ∀ m : gmap string V,
  NoDup (item_code <$> l) →
  foldl (λ m i, <[item_code i := v i]> m) m l !! c
  = match List.find (λ i, bool_decide (item_code i = c)) l with
    | Some i => Some (v i)
    | None => m !! c
    end.
Proof.
  induction l as [|i l IH]; intros m Hnd; [reflexivity|].
  rewrite fmap_cons in Hnd. apply NoDup_cons in Hnd as [Hi Hnd].
  cbn [foldl]. rewrite IH by exact Hnd. simpl.
  destruct (bool_decide_reflect (item_code i = c)) as [<-|Hne].
  - rewrite find_code_none by exact Hi. apply lookup_insert_eq.
  - destruct (List.find _ l); [reflexivity|]. apply lookup_insert_ne. exact Hne.
Qed.

(** For a source whose lines have distinct item codes,
    [get_available_quantities] reports for each code the source quantity,
    the quantity consumed by all non-cancelled children of the target
    doctype, and their difference. *)
Lemma get_available_quantities_entry st sdt sname tdt source c :
  get_doc st sdt sname = Some source →
  sdt ∈ PROCUREMENT_DOCTYPES →
  NoDup (item_code <$> items source) →
  ∃ av, get_available_quantities st sdt sname tdt = Some av
    ∧ av !! c
      = (λ i, mkAvailable (flt (qty i))
                (default 0 (get_consumed_quantities st sdt sname tdt None !! c))
                (flt (qty i)
                 - default 0 (get_consumed_quantities st sdt sname tdt None !! c)))
        <$> List.find (λ i, bool_decide (item_code i = c)) (items source).
Proof.
  intros Hsrc Hsdt Hnd. unfold get_available_quantities, get_items_field_name.
  rewrite Hsrc, (bool_decide_eq_true_2 _ Hsdt).
  eexists. split; [reflexivity|].
  set (consumed := get_consumed_quantities st sdt sname tdt None).
  rewrite (fold_insert_lookup
             (λ i, mkAvailable (flt (qty i)) (default 0 (consumed !! item_code i))
                     (flt (qty i) - default 0 (consumed !! item_code i))))
    by exact Hnd.
  destruct (List.find _ (items source)) as [i|] eqn:Hi; simpl.
  - apply find_some in Hi as [_ Hi]. apply bool_decide_eq_true_1 in Hi.
    rewrite Hi. reflexivity.
  - apply lookup_empty.
Qed.

(** A new document that is not a Request for Quotation, tracked against
    its own source, whose source lines have distinct item codes: the
    quantity check passes exactly when every line asks for an item the
    available-quantities query lists and for no more than the available
    quantity it reports (the supplier check of a quotation aside). *)
Theorem available_quantities_announce_validation st doc source av :
  truthy (procurement_source_doctype doc) = true →
  truthy (procurement_source_name doc) = true →
  islocal doc = true →
  doctype doc ≠ "Request for Quotation" →
  doctype doc ∈ PROCUREMENT_DOCTYPES →
  default "" (procurement_source_doctype doc) ∈ PROCUREMENT_DOCTYPES →
  get_doc st (default "" (procurement_source_doctype doc))
    (default "" (procurement_source_name doc)) = Some source →
  ¬ rerooted doc source →
  NoDup (item_code <$> items source) →
  (doctype doc = "Supplier Quotation" → validate_supplier_in_rfq st doc = Pass) →
  get_available_quantities st (default "" (procurement_source_doctype doc))
    (default "" (procurement_source_name doc)) (doctype doc) = Some av →
  (validate_quantity_limits st doc = Pass
   ↔ Forall (λ line, ∃ a, av !! item_code line = Some a
                          ∧ flt (qty line) ≤ available_qty a) (items doc)).
Proof.
  intros Hsd Hsn Hnew Hrfq Hdt Hsdt Hsrc Hno Hnd Hsup Hav.
  rewrite (validate_quantity_limits_lines st doc source) by assumption.
  rewrite Hnew. simpl negb. cbv iota.
  assert (Hs : (if bool_decide (doctype doc = "Supplier Quotation")
                   && bool_decide (procurement_source_doctype doc
                                   = Some "Request for Quotation")
                then validate_supplier_in_rfq st doc else Pass) = Pass).
  { case_bool_decide as Hsq; [|reflexivity]. simpl.
    destruct (bool_decide _); [apply Hsup; exact Hsq | reflexivity]. }
  rewrite Hs. simpl and_then. rewrite for_each_pass.
  apply Forall_iff. intros line.
  destruct (get_available_quantities_entry st _ _ (doctype doc) source
              (item_code line) Hsrc Hsdt Hnd) as (av' & Hav' & Hentry).
  rewrite Hav in Hav'. injection Hav' as <-.
  rewrite check_item_pass, Hentry. unfold declared_qty.
  rewrite consumed_quantities_fst, lookup_fmap, default_fst_total.
  fold (total_of (item_code line)
          (get_consumed_quantities_detailed st
             (default "" (procurement_source_doctype doc))
             (default "" (procurement_source_name doc)) (doctype doc) None)).
  set (consumed := total_of _ _).
  destruct (List.find _ (items source)) as [i|]; simpl.
  - split.
    + intros (q & [= <-] & Hle). eexists. split; [reflexivity|]. exact Hle.
    + intros (a & [= <-] & Hle). eexists. split; [reflexivity|]. exact Hle.
  - split; [intros (q & Hq & _); discriminate | intros (a & Ha & _); discriminate].
Qed.

Lemma available_quantities_announce_validation_witness :
  validate_quantity_limits [mr1; pr_a] pr_new = Pass
  ↔ Forall (λ line, ∃ a,
              ({[ "ITEM-1" := mkAvailable 100 70 30 ]} : gmap string Available)
                !! item_code line = Some a
              ∧ flt (qty line) ≤ available_qty a) (items pr_new).
Proof.
  apply (available_quantities_announce_validation [mr1; pr_a] pr_new mr1);
    try reflexivity.
  - discriminate.
  - compute_done.
  - compute_done.
  - intros [H _]. discriminate H.
  - compute_done.
Defined.

End AvailableQuantities.

(** ** Item containment (validate_items_against_source) *)

Section ItemsAgainstSource.
Import Workflow Ledger Scenario.

Lemma items_against_source_contained st doc source :
  truthy (procurement_source_doctype doc) = true →
  truthy (procurement_source_name doc) = true →
  doctype doc ∈ PROCUREMENT_DOCTYPES →
  default "" (procurement_source_doctype doc) ∈ PROCUREMENT_DOCTYPES →
  get_doc st (default "" (procurement_source_doctype doc))
    (default "" (procurement_source_name doc)) = Some source →
  (validate_items_against_source st doc = Pass
   ↔ ∀ c, c ∈ (item_code <$> items doc) → c ∈ (item_code <$> items source))
  ∧ (∀ e, validate_items_against_source st doc = Reject e →
       ∃ before line after,
         items doc = before ++ line :: after
         ∧ (∀ c, c ∈ (item_code <$> before) → c ∈ (item_code <$> items source))
         ∧ (item_code line ∉ (item_code <$> items source))
         ∧ e = ItemNotInSource (item_code line)
                 (default "" (procurement_source_name doc))).
Proof.
  intros Hsd Hsn Hdt Hsdt Hsrc. unfold validate_items_against_source.
  rewrite Hsd, Hsn. simpl negb. simpl orb. cbv iota.
  rewrite Hsrc. unfold get_items_field_name.
  rewrite (bool_decide_eq_true_2 _ Hsdt), (bool_decide_eq_true_2 _ Hdt).
  set (codes := item_code <$> items source).
  set (sname := default "" (procurement_source_name doc)).
  generalize (items doc). intros l. split.
  - rewrite for_each_pass, Forall_forall. split.
    + intros H c Hc. apply list_elem_of_fmap in Hc as (line & -> & Hin).
      specialize (H line Hin). case_bool_decide; [assumption | discriminate].
    + intros H line Hin. rewrite bool_decide_eq_true_2; [reflexivity|].
      apply H. apply list_elem_of_fmap. exists line. split; [reflexivity | exact Hin].
  - induction l as [|line l IH]; intros e; simpl; [discriminate|].
    case_bool_decide as Hc; simpl.
    + intros He. destruct (IH e He) as (before & line' & after & -> & Hb & Hl & ->).
      exists (line :: before), line', after. split; [reflexivity|].
      split; [|split; [exact Hl | reflexivity]].
      intros c Hin. rewrite fmap_cons in Hin.
      apply elem_of_cons in Hin as [->|Hin]; [exact Hc | apply Hb; exact Hin].
    + intros [= <-]. exists [], line, l. split; [reflexivity|].
      split; [intros c Hin; inversion Hin|]. split; [exact Hc | reflexivity].
Qed.

(** With both source fields set, an existing source and procurement
    doctypes on both sides, [validate_items_against_source] passes exactly
    when every item code of the document is an item code of its source;
    otherwise it rejects with the first item code that is not, and the
    name of the source. *)
Theorem validate_items_against_source_contained st doc source :
  truthy (procurement_source_doctype doc) = true →
  truthy (procurement_source_name doc) = true →
  doctype doc ∈ PROCUREMENT_DOCTYPES →
  default "" (procurement_source_doctype doc) ∈ PROCUREMENT_DOCTYPES →
  get_doc st (default "" (procurement_source_doctype doc))
    (default "" (procurement_source_name doc)) = Some source →
  (validate_items_against_source st doc = Pass
   ↔ ∀ c, c ∈ (item_code <$> items doc) → c ∈ (item_code <$> items source))
  ∧ (∀ e, validate_items_against_source st doc = Reject e →
       ∃ before line after,
         items doc = before ++ line :: after
         ∧ (∀ c, c ∈ (item_code <$> before) → c ∈ (item_code <$> items source))
         ∧ (item_code line ∉ (item_code <$> items source))
         ∧ e = ItemNotInSource (item_code line)
                 (default "" (procurement_source_name doc))).
Proof. exact (items_against_source_contained st doc source). Qed.

Lemma validate_items_against_source_contained_witness :
  (validate_items_against_source [mr1; pr_a] pr_new = Pass
   ↔ ∀ c, c ∈ (item_code <$> items pr_new) → c ∈ (item_code <$> items mr1))
  ∧ (∀ e, validate_items_against_source [mr1; pr_a] pr_new = Reject e →
       ∃ before line after,
         items pr_new = before ++ line :: after
         ∧ (∀ c, c ∈ (item_code <$> before) → c ∈ (item_code <$> items mr1))
         ∧ (item_code line ∉ (item_code <$> items mr1))
         ∧ e = ItemNotInSource (item_code line)
                 (default "" (procurement_source_name pr_new))).
Proof.
  apply (validate_items_against_source_contained [mr1; pr_a] pr_new mr1);
    try reflexivity; compute_done.
Defined.

(** Outside the RFQ skip and the re-rooting of a Purchase Order, a
    document that passes [validate_quantity_limits] passes
    [validate_items_against_source] as well: the quantity loop already
    rejects an item that is missing from the source. *)
Theorem quantity_check_implies_item_check st doc source :
  truthy (procurement_source_doctype doc) = true →
  truthy (procurement_source_name doc) = true →
  doctype doc ≠ "Request for Quotation" →
  doctype doc ∈ PROCUREMENT_DOCTYPES →
  default "" (procurement_source_doctype doc) ∈ PROCUREMENT_DOCTYPES →
  get_doc st (default "" (procurement_source_doctype doc))
    (default "" (procurement_source_name doc)) = Some source →
  ¬ rerooted doc source →
  validate_quantity_limits st doc = Pass →
  validate_items_against_source st doc = Pass.
Proof.
  intros Hsd Hsn Hrfq Hdt Hsdt Hsrc Hno Hpass.
  rewrite (validate_quantity_limits_lines st doc source) in Hpass by assumption.
  apply and_then_pass in Hpass as [_ Hpass]. apply for_each_pass in Hpass.
  apply (items_against_source_contained st doc source); try assumption.
  intros c Hc. apply list_elem_of_fmap in Hc as (line & -> & Hin).
  rewrite Forall_forall in Hpass. specialize (Hpass line Hin).
  apply check_item_pass in Hpass as (q & Hq & _). unfold declared_qty in Hq.
  destruct (List.find _ (items source)) as [i|] eqn:Hi; [|discriminate].
  apply find_some in Hi as [Hin' Hi]. apply bool_decide_eq_true_1 in Hi.
  rewrite <- Hi. apply list_elem_of_fmap. exists i.
  split; [reflexivity | apply list_elem_of_In; exact Hin'].
Qed.

Lemma quantity_check_implies_item_check_witness :
  validate_items_against_source [mr1; pr_a] pr_new = Pass.
Proof.
  apply (quantity_check_implies_item_check [mr1; pr_a] pr_new mr1);
    try reflexivity.
  - discriminate.
  - compute_done.
  - compute_done.
  - intros [H _]. discriminate H.
Defined.

End ItemsAgainstSource.

(** ** Next and previous step *)

Section Steps.
Import Workflow Queries Scenario.

Lemma next_step_from_split dt steps nx rest : ∀ visited,
  steps = visited ++ rest →
  next_step_from dt steps (length visited) rest = Some nx →
  ∃ l1 c l2, steps = l1 ++ c :: nx :: l2 ∧ doctype_name c = dt.
Proof.
  induction rest as [|step rest IH]; intros visited Hsteps H; [discriminate|].
  simpl in H.
  destruct (bool_decide_reflect (doctype_name step = dt)) as [Hs|Hs]; simpl in H.
  - case_bool_decide as Hi.
    + rewrite Hsteps in H.
      rewrite lookup_app_r in H by lia.
      replace (length visited + 1 - length visited)%nat with 1%nat in H by lia.
      simpl in H. destruct rest as [|nx' rest]; [discriminate|].
      injection H as ->. exists visited, step, rest. split; [exact Hsteps | exact Hs].
    + apply (IH (visited ++ [step])).
      * rewrite <- app_assoc. exact Hsteps.
      * rewrite length_app. simpl.
        replace (length visited + 1)%nat with (S (length visited)) by lia. exact H.
  - apply (IH (visited ++ [step])).
    + rewrite <- app_assoc. exact Hsteps.
    + rewrite length_app. simpl.
      replace (length visited + 1)%nat with (S (length visited)) by lia. exact H.
Qed.

Lemma NoDup_app_cons_notin {A} (f : FlowStep → A) l1 c nx l2 :
  NoDup (f <$> (l1 ++ c :: nx :: l2)) →
  (∀ s, s ∈ l1 ++ [c] → f s ≠ f nx) ∧ (∀ s, s ∈ l1 → f s ≠ f c).
Proof.
  rewrite fmap_app, !fmap_cons. intros Hnd.
  apply NoDup_app in Hnd as (_ & Hdis & Hnd).
  apply NoDup_cons in Hnd as [Hc Hnd]. apply NoDup_cons in Hnd as [_ _].
  split.
  - intros s Hs Heq. apply elem_of_app in Hs as [Hs|Hs].
    + apply (Hdis (f s)); [apply list_elem_of_fmap; eauto|].
      rewrite Heq. right. left.
    + apply list_elem_of_singleton in Hs as ->. apply Hc. rewrite Heq. left.
  - intros s Hs Heq. apply (Hdis (f s)); [apply list_elem_of_fmap; eauto|].
    rewrite Heq. left.
Qed.

Lemma previous_step_of_next flow dt nx :
  NoDup (doctype_name <$> get_flow_steps flow) →
  get_next_step dt flow = Some nx →
  get_previous_step (doctype_name nx) flow = get_current_step dt flow
  ∧ is_Some (get_current_step dt flow)
  ∧ get_current_step (doctype_name nx) flow = Some nx.
Proof.
  intros Hnd Hnx. unfold get_next_step in Hnx.
  destruct (next_step_from_split dt (get_flow_steps flow) nx (get_flow_steps flow) []
              eq_refl Hnx) as (l1 & c & l2 & Hsteps & Hc).
  rewrite Hsteps in Hnd.
  destruct (NoDup_app_cons_notin doctype_name l1 c nx l2 Hnd) as [Hn1 Hn2].
  destruct (get_previous_step_prior flow (doctype_name nx) l1 c nx l2 Hsteps Hn1 eq_refl)
    as [Hcur_nx Hprev].
  assert (Hcur : get_current_step dt flow = Some c).
  { unfold get_current_step. rewrite Hsteps. clear -Hc Hn2.
    induction l1 as [|s l1 IH]; simpl.
    - rewrite (bool_decide_eq_true_2 _ Hc). reflexivity.
    - rewrite bool_decide_eq_false_2.
      + apply IH. intros s' Hs'. apply Hn2. right. exact Hs'.
      + rewrite <- Hc. apply Hn2. left. }
  rewrite Hprev, Hcur. split; [reflexivity|]. split; [eexists; reflexivity | exact Hcur_nx].
Qed.

(** In a flow whose steps have pairwise distinct doctypes: when
    [get_next_step] of a doctype returns a step, [get_previous_step] of
    that step's doctype returns the step of the doctype itself. *)
Theorem previous_of_next_step flow dt nx :
  NoDup (doctype_name <$> get_flow_steps flow) →
  get_next_step dt flow = Some nx →
  get_previous_step (doctype_name nx) flow = get_current_step dt flow
  ∧ is_Some (get_current_step dt flow)
  ∧ get_current_step (doctype_name nx) flow = Some nx.
Proof. exact (previous_step_of_next flow dt nx). Qed.

Lemma previous_of_next_step_witness :
  get_previous_step (doctype_name (mkStep 3 RFQ true)) flow = get_current_step PR flow
  ∧ is_Some (get_current_step PR flow)
  ∧ get_current_step (doctype_name (mkStep 3 RFQ true)) flow = Some (mkStep 3 RFQ true).
Proof.
  apply (previous_of_next_step flow PR (mkStep 3 RFQ true)).
  - compute_done.
  - reflexivity.
Defined.

(** In a flow whose steps have pairwise distinct doctypes,
    [get_previous_step] returns nothing for the doctype of the first step
    and [get_next_step] returns nothing for the doctype of the last. *)
Theorem no_step_beyond_the_ends flow first middle final :
  NoDup (doctype_name <$> get_flow_steps flow) →
  get_flow_steps flow = first :: middle ++ [final] →
  get_previous_step (doctype_name first) flow = None
  ∧ get_next_step (doctype_name final) flow = None.
Proof.
  intros Hnd Hsteps. split.
  - unfold get_previous_step. rewrite Hsteps in *. simpl.
    rewrite bool_decide_eq_true_2 by reflexivity. simpl.
    rewrite fmap_cons in Hnd. apply NoDup_cons in Hnd as [Hf _].
    assert (H : ∀ l i, (∀ s, s ∈ l → doctype_name s ≠ doctype_name first) →
              previous_step_from (doctype_name first) (first :: middle ++ [final]) i l
              = None).
    { induction l as [|s l IH]; intros i Hl; [reflexivity|].
      simpl. rewrite bool_decide_eq_false_2 by (apply Hl; left). simpl.
      apply IH. intros s' Hs'. apply Hl. right. exact Hs'. }
    apply H. intros s Hs Heq. apply Hf. rewrite <- Heq.
    apply list_elem_of_fmap. eauto.
  - destruct (get_next_step _ flow) as [nx|] eqn:Hnx; [|reflexivity]. exfalso.
    unfold get_next_step in Hnx.
    destruct (next_step_from_split _ (get_flow_steps flow) nx (get_flow_steps flow) []
                eq_refl Hnx) as (l1 & c & l2 & Hs & Hc).
    assert (Hi : (doctype_name <$> get_flow_steps flow) !! length l1
                 = Some (doctype_name final)).
    { rewrite Hs, list_lookup_fmap, lookup_app_r by lia.
      rewrite Nat.sub_diag. simpl. rewrite Hc. reflexivity. }
    assert (Hj : (doctype_name <$> get_flow_steps flow) !! S (length middle)
                 = Some (doctype_name final)).
    { rewrite Hsteps, list_lookup_fmap. simpl. rewrite lookup_app_r by lia.
      rewrite Nat.sub_diag. reflexivity. }
    pose proof (NoDup_lookup _ _ _ _ Hnd Hi Hj) as Heq.
    assert (Hlen : length (get_flow_steps flow) = length (get_flow_steps flow))
      by reflexivity.
    rewrite Hs in Hlen at 1. rewrite Hsteps in Hlen.
    rewrite length_app in Hlen. simpl in Hlen. rewrite length_app in Hlen.
    simpl in Hlen. lia.
Qed.

Lemma no_step_beyond_the_ends_witness :
  get_previous_step (doctype_name (mkStep 1 MR false)) flow = None
  ∧ get_next_step (doctype_name (mkStep 5 PO true)) flow = None.
Proof.
  apply (no_step_beyond_the_ends flow (mkStep 1 MR false)
           [mkStep 2 PR true; mkStep 3 RFQ true; mkStep 4 SQ true]
           (mkStep 5 PO true)).
  - compute_done.
  - reflexivity.
Defined.

End Steps.

(** ** The capped walks below the cap *)

Section Roots.
Import Links Queries Scenario.

Lemma run_loop_mono {S R} (step : S → S + R) k : ∀ k' s r,
  run_loop step k s = Some r → (k ≤ k')%nat → run_loop step k' s = Some r.
Proof.
  induction k as [|k IH]; intros k' s r H Hle; [discriminate|].
  destruct k' as [|k']; [lia|]. simpl in *.
  destruct (step s); [apply IH; [exact H | lia] | exact H].
Qed.

Lemma run_loop_S {S R} (step : S → S + R) k s :
  run_loop step (Datatypes.S k) s
  = match step s with
    | inl s' => run_loop step k s'
    | inr r => Some r
    end.
Proof. reflexivity. Qed.

Lemma walks_below_cap st k : ∀ path dt n i rdt rn,
  (i + k ≤ max_iterations)%nat →
  run_loop (find_root_step st) k (dt, n, i) = Some (rdt, rn) →
  match get_doc st rdt rn with
  | Some d => truthy (procurement_source_doctype d)
              && truthy (procurement_source_name d) = false
  | None => True
  end
  ∧ ∃ p, run_loop (path_step st) k (path, dt, n, i) = Some p
         ∧ doc_key rdt rn ∈ p ∧ doc_key dt n ∈ p ∧ ∀ x, x ∈ path → x ∈ p.
Proof.
  induction k as [|k IH]; intros path dt n i rdt rn Hk H; [discriminate|].
  assert (Hlt : (i < max_iterations)%nat) by lia.
  cbn [run_loop] in *. unfold find_root_step in H at 1. unfold path_step at 1.
  rewrite (bool_decide_eq_true_2 _ Hlt) in H |- *.
  destruct (get_doc st dt n) as [doc|] eqn:Hdoc.
  - destruct (_ && _) eqn:Ht.
    + destruct (IH (doc_key dt n :: path) _ _ (S i) rdt rn ltac:(lia) H)
        as (Hroot & p & Hp & Hr & _ & Hsub).
      split; [exact Hroot|]. exists p. split; [exact Hp|]. split; [exact Hr|].
      split; [apply Hsub; left | intros x Hx; apply Hsub; right; exact Hx].
    + injection H as <- <-. rewrite Hdoc. split; [exact Ht|].
      eexists. split; [reflexivity|]. split; [left|]. split; [left|].
      intros x Hx. right. exact Hx.
  - injection H as <- <-. rewrite Hdoc. split; [exact I|].
    eexists. split; [reflexivity|]. split; [left|]. split; [left|].
    intros x Hx. right. exact Hx.
Qed.

(** When the walk from a document leaves its loop within 20 iterations,
    [find_root_document] returns a document that is missing or has no
    source pair, and [get_path_to_document] returns a set holding the key of
    that root and the key of the start. *)
Theorem root_is_reached_below_cap st k dt n rdt rn :
  (k ≤ 20)%nat →
  find_root_document st k dt n = Some (rdt, rn) →
  find_root_document st 21 dt n = Some (rdt, rn)
  ∧ match get_doc st rdt rn with
    | Some d => truthy (procurement_source_doctype d)
                && truthy (procurement_source_name d) = false
    | None => True
    end
  ∧ ∃ p, get_path_to_document st 21 dt n = Some p
         ∧ doc_key rdt rn ∈ p ∧ doc_key dt n ∈ p.
Proof.
  intros Hk H. unfold find_root_document in *.
  split; [apply (run_loop_mono _ k); [exact H | lia]|].
  destruct (walks_below_cap st k [] dt n 0%nat rdt rn) as (Hroot & p & Hp & Hr & Hs & _);
    [unfold max_iterations; lia | exact H |].
  split; [exact Hroot|].
  exists (list_to_set p). unfold get_path_to_document.
  rewrite (run_loop_mono _ k 21 _ p Hp) by lia. simpl.
  split; [reflexivity|]. split; apply elem_of_list_to_set; assumption.
Qed.

Lemma root_is_reached_below_cap_witness :
  find_root_document after_b 21 PO "PO-B" = Some (RFQ, "RFQ-1")
  ∧ match get_doc after_b RFQ "RFQ-1" with
    | Some d => truthy (procurement_source_doctype d)
                && truthy (procurement_source_name d) = false
    | None => True
    end
  ∧ ∃ p, get_path_to_document after_b 21 PO "PO-B" = Some p
         ∧ doc_key RFQ "RFQ-1" ∈ p ∧ doc_key PO "PO-B" ∈ p.
Proof.
  apply (root_is_reached_below_cap after_b 3 PO "PO-B" RFQ "RFQ-1").
  - lia.
  - reflexivity.
Defined.

(** ** The recursive chain and the backward walk *)

Lemma ancestry_walk st l : ∀ dt n chain,
  ancestry st dt n l →
  ∃ doc, get_doc st dt n = Some doc
    ∧ run_loop (backward_chain_step st) (S (length l))
        (chain, procurement_source_doctype doc, procurement_source_name doc)
      = Some (chain ++ l).
Proof.
  induction l as [|[sdt sname] l IH]; intros dt n chain Ha; simpl in Ha;
    destruct (get_doc st dt n) as [doc|] eqn:Hdoc; try contradiction.
  - exists doc. split; [reflexivity|]. simpl. rewrite Ha, app_nil_r. reflexivity.
  - destruct Ha as (Ht & Hsd & Hsn & Ha).
    exists doc. split; [reflexivity|].
    destruct (IH sdt sname (chain ++ [(sdt, sname)]) Ha) as (parent & Hp & Hrun).
    rewrite Hsd, Hsn in Ht |- *.
    change (length ((sdt, sname) :: l)) with (S (length l)).
    rewrite run_loop_S. unfold backward_chain_step at 1.
    rewrite Ht.
    change (default "" (Some sdt)) with sdt.
    change (default "" (Some sname)) with sname. rewrite Hp.
    rewrite Hrun, <- app_assoc. reflexivity.
Qed.

(** When [get_document_chain] returns, its backward list is the line of
    ancestors of the document, root first: each is the stored source of
    the next, the root has no source pair, and the backward walk of
    [get_linked_documents_with_counts] returns the same documents in the
    opposite order; its forward list is the targets of the document's
    links. *)
Theorem get_document_chain_ancestors st fuel dt n backward forward :
  get_document_chain st fuel dt n = Returned (backward, forward) →
  ancestry st dt n (reverse backward)
  ∧ backward_chain_of st (S (length backward)) dt n = Some (reverse backward)
  ∧ ∃ doc, get_doc st dt n = Some doc
      ∧ forward = (λ link, (target_doctype link, target_docname link))
                    <$> procurement_links doc.
Proof.
  revert dt n backward forward.
  assert (Hanc : ∀ fuel dt n backward forward,
            get_document_chain st fuel dt n = Returned (backward, forward) →
            ancestry st dt n (reverse backward)
            ∧ ∃ doc, get_doc st dt n = Some doc
                ∧ forward = (λ link, (target_doctype link, target_docname link))
                              <$> procurement_links doc).
  { clear fuel. induction fuel as [|fuel IH]; intros dt n backward forward H;
      [discriminate|].
    simpl in H. destruct (get_doc st dt n) as [doc|] eqn:Hdoc; [|discriminate].
    destruct (_ && _) eqn:Ht.
    - destruct (get_document_chain st fuel _ _) as [[b f]| |] eqn:Hrec;
        try discriminate.
      injection H as <- <-. destruct (IH _ _ _ _ Hrec) as [Ha _].
      split; [|exists doc; split; reflexivity].
      rewrite reverse_app. simpl. rewrite Hdoc, Ht.
      apply andb_true_iff in Ht as [Ht1 Ht2].
      repeat split; [apply truthy_Some; exact Ht1 | apply truthy_Some; exact Ht2 | exact Ha].
    - injection H as <- <-. split; [|exists doc; split; reflexivity].
      simpl. rewrite Hdoc. exact Ht. }
  intros dt n backward forward H.
  destruct (Hanc fuel dt n backward forward H) as [Ha Hf].
  split; [exact Ha|]. split; [|exact Hf].
  destruct (ancestry_walk st (reverse backward) dt n [] Ha) as (doc & Hdoc & Hrun).
  unfold backward_chain_of. rewrite Hdoc.
  rewrite length_reverse in Hrun.
  destruct (_ && _) eqn:Ht; [exact Hrun|].
  simpl in Hrun. rewrite Ht in Hrun. exact Hrun.
Qed.

Lemma get_document_chain_ancestors_witness :
  ancestry after_b PO "PO-B" (reverse [(RFQ, "RFQ-1"); (SQ, "SQ-2")])
  ∧ backward_chain_of after_b 3 PO "PO-B"
    = Some (reverse [(RFQ, "RFQ-1"); (SQ, "SQ-2")])
  ∧ ∃ doc, get_doc after_b PO "PO-B" = Some doc
      ∧ [] = (λ link, (target_doctype link, target_docname link))
               <$> procurement_links doc.
Proof.
  apply (get_document_chain_ancestors after_b 3 PO "PO-B"
           [(RFQ, "RFQ-1"); (SQ, "SQ-2")] []).
  reflexivity.
Defined.

End Roots.

(** ** Links are only ever appended *)

Section AppendOnly.
Import Links Scenario.

(** [create_backward_link] keeps the keys of the store in place, changes no
    document other than the source, and changes the source at most by one
    link appended to its links. *)
Theorem create_backward_link_appends has_field now st sdt snm tdt tnm :
  key <$> create_backward_link has_field now st sdt snm tdt tnm = key <$> st
  ∧ ∀ dt n d, get_doc st dt n = Some d →
      ∃ d', get_doc (create_backward_link has_field now st sdt snm tdt tnm) dt n
            = Some d'
        ∧ (d' = d
           ∨ (dt = sdt ∧ n = snm
              ∧ d' = append_link d (mkLink sdt snm tdt tnm now)
              ∧ ¬ Exists (link_to tdt tnm) (procurement_links d))).
Proof.
  unfold create_backward_link.
  destruct (get_doc st sdt snm) as [src|] eqn:Hsrc;
    [|split; [reflexivity | intros dt n d Hd; exists d; split; [exact Hd | left; reflexivity]]].
  destruct (negb (has_field sdt));
    [split; [reflexivity | intros dt n d Hd; exists d; split; [exact Hd | left; reflexivity]]|].
  case_bool_decide as Hex;
    [split; [reflexivity | intros dt n d Hd; exists d; split; [exact Hd | left; reflexivity]]|].
  destruct (get_doc_key _ _ _ _ Hsrc) as [Hdt Hn].
  set (src' := append_link src (mkLink sdt snm tdt tnm now)).
  assert (Hk : get_doc st (doctype src') (name src') = Some src)
    by (simpl; rewrite Hdt, Hn; exact Hsrc).
  split; [exact (save_keys st src' src Hk)|].
  intros dt n d Hd.
  destruct (decide (has_key dt n src')) as [[H1 H2]|Hne].
  - simpl in H1, H2.
    assert (Hedt : dt = sdt) by congruence. assert (Hen : n = snm) by congruence.
    clear H1 H2. subst dt n. rewrite Hsrc in Hd.
    injection Hd as <-. exists src'. split.
    + pose proof (get_doc_save st src src' Hk) as Hs. simpl in Hs.
      rewrite Hdt, Hn in Hs. exact Hs.
    + right. split; [reflexivity|]. split; [reflexivity|].
      split; [reflexivity | exact Hex].
  - exists d. split; [rewrite get_doc_save_other by exact Hne; exact Hd | left; reflexivity].
Qed.

(** Submitting a document whose source is stored and carries the links
    table makes the source fail the before-cancel check, with the submitted
    document listed under its doctype. *)
Theorem submitted_child_blocks_cancel has_field now st doc src :
  truthy (procurement_source_doctype doc) = true →
  truthy (procurement_source_name doc) = true →
  get_doc st (default "" (procurement_source_doctype doc))
    (default "" (procurement_source_name doc)) = Some src →
  has_field (default "" (procurement_source_doctype doc)) = true →
  ∃ src', get_doc (on_procurement_submit has_field now st doc)
            (default "" (procurement_source_doctype doc))
            (default "" (procurement_source_name doc)) = Some src'
    ∧ ∃ count docs_by_type names,
        check_can_cancel src' = Reject (CancellationNotAllowed count docs_by_type)
        ∧ dict_get (doctype doc) docs_by_type = Some names
        ∧ name doc ∈ names.
Proof.
  intros Hsd Hsn Hsrc Hf. unfold on_procurement_submit. rewrite Hsd, Hsn. simpl.
  set (sdt := default "" (procurement_source_doctype doc)) in *.
  set (snm := default "" (procurement_source_name doc)) in *.
  assert (Hgoal : ∀ src', Exists (link_to (doctype doc) (name doc)) (procurement_links src') →
            ∃ count docs_by_type names,
              check_can_cancel src' = Reject (CancellationNotAllowed count docs_by_type)
              ∧ dict_get (doctype doc) docs_by_type = Some names
              ∧ name doc ∈ names).
  { intros src' Hex. apply Exists_exists in Hex as (link & Hin & Hdt & Hn).
    unfold check_can_cancel.
    destruct (procurement_links src') as [|l0 ls] eqn:Hl; [inversion Hin|].
    assert (Hm : name doc ∈ names_of (doctype doc) (l0 :: ls)).
    { unfold names_of. apply list_elem_of_fmap. exists link. split; [symmetry; exact Hn|].
      apply list_elem_of_filter. split; [exact Hdt | exact Hin]. }
    exists (length (l0 :: ls)), (group_links (l0 :: ls)),
      (names_of (doctype doc) (l0 :: ls)).
    split; [reflexivity|]. rewrite group_links_get.
    destruct (names_of (doctype doc) (l0 :: ls)); [inversion Hm|].
    split; [reflexivity | exact Hm]. }
  unfold create_backward_link. rewrite Hsrc, Hf. simpl.
  case_bool_decide as Hex.
  - exists src. split; [exact Hsrc | apply Hgoal; exact Hex].
  - destruct (get_doc_key _ _ _ _ Hsrc) as [Hdt Hn].
    eexists. split.
    + pose proof (get_doc_save st src
                    (append_link src (mkLink sdt snm (doctype doc) (name doc) now)))
        as Hs. simpl in Hs. rewrite Hdt, Hn in Hs. apply Hs. exact Hsrc.
    + apply Hgoal. simpl. apply Exists_app. right. left. split; reflexivity.
Qed.

Lemma submitted_child_blocks_cancel_witness :
  ∃ src', get_doc (on_procurement_submit has_links_field 1 [pr1] rfq_new)
            (default "" (procurement_source_doctype rfq_new))
            (default "" (procurement_source_name rfq_new)) = Some src'
    ∧ ∃ count docs_by_type names,
        check_can_cancel src' = Reject (CancellationNotAllowed count docs_by_type)
        ∧ dict_get (doctype rfq_new) docs_by_type = Some names
        ∧ name rfq_new ∈ names.
Proof.
  apply (submitted_child_blocks_cancel has_links_field 1 [pr1] rfq_new pr1);
    reflexivity.
Defined.

End AppendOnly.

(** ** Validated supplier rules do not overlap *)

Section RuleTable.
Import SupplierRule RuleDoc Scenario.

Lemma table_row_unique {V} (table : list (string * V)) n v1 v2 :
  NoDup (fst <$> table) → (n, v1) ∈ table → (n, v2) ∈ table → v1 = v2.
Proof.
  induction table as [|[n0 v0] table IH]; intros Hnd H1 H2; [inversion H1|].
  rewrite fmap_cons in Hnd. apply NoDup_cons in Hnd as [Hn Hnd]. simpl in Hn.
  assert (Hout : ∀ v, (n0, v) ∈ table → False).
  { intros v Hv. apply Hn. apply list_elem_of_fmap. exists (n0, v). split; [reflexivity | exact Hv]. }
  apply elem_of_cons in H1 as [[= -> ->]|H1]; apply elem_of_cons in H2 as [[= ->]|H2].
  - reflexivity.
  - destruct (Hout _ H2).
  - subst. destruct (Hout _ H1).
  - apply IH; assumption.
Qed.

(** In a table of rules with distinct names in which every rule passes
    [validate], an amount is covered by at most one rule, and
    [get_applicable_rule] returns the rule that covers it. *)
Theorem validated_rules_single_match table total_amount self_name self :
  NoDup (fst <$> table) →
  (∀ n r, (n, r) ∈ table → RuleDoc.validate table n r = None) →
  (self_name, self) ∈ table →
  covers total_amount self →
  get_applicable_rule (snd <$> table) total_amount = Some self
  ∧ ∀ n r, (n, r) ∈ table → covers total_amount r → (n, r) = (self_name, self).
Proof.
  intros Hnd Hval Hself Hcov.
  assert (Huniq : ∀ n r, (n, r) ∈ table → covers total_amount r →
                         (n, r) = (self_name, self)).
  { intros n r Hin Hr.
    destruct (decide (n = self_name)) as [->|Hne].
    - f_equal. apply (table_row_unique table self_name r self); assumption.
    - exfalso. specialize (Hval self_name self Hself).
      unfold RuleDoc.validate in Hval.
      destruct (validate_amount_range self); [discriminate|].
      destruct (validate_no_overlaps table self_name self) eqn:Hov; [discriminate|].
      unfold validate_no_overlaps in Hov.
      destruct Hcov as (Ha & Hf & Ht). destruct Hr as (Ha' & Hf' & Ht').
      rewrite Ha in Hov. simpl in Hov.
      assert (Hmem : r ∈ List.filter
                (λ rule, bool_decide (amount_from self < amount_to rule)
                         && bool_decide (amount_from rule < amount_to self))
                (snd <$> List.filter
                   (λ row, bool_decide (row.1 ≠ self_name) && is_active row.2) table)).
      { apply list_elem_of_In, filter_In. split.
        - apply list_elem_of_In, list_elem_of_fmap. exists (n, r). split; [reflexivity|].
          apply list_elem_of_In, filter_In. split; [apply list_elem_of_In; exact Hin|].
          simpl. rewrite Ha', bool_decide_eq_true_2 by exact Hne. reflexivity.
        - rewrite !bool_decide_eq_true_2 by lia. reflexivity. }
      destruct (List.filter _ (snd <$> _)); [inversion Hmem | discriminate]. }
  split; [|exact Huniq].
  unfold get_applicable_rule.
  pose proof (sorted_by_head rule_le rule_le_total rule_le_trans
                (filter (covers total_amount) (snd <$> table))) as H.
  destruct (head _) as [r|].
  - destruct H as [Hin _]. apply list_elem_of_filter in Hin as [Hr Hin].
    apply list_elem_of_fmap in Hin as ([n r'] & -> & Hin). simpl in *.
    specialize (Huniq n r' Hin Hr). injection Huniq as _ ->. reflexivity.
  - exfalso.
    assert (Hm : self ∈ filter (covers total_amount) (snd <$> table)).
    { apply list_elem_of_filter. split; [exact Hcov|].
      apply list_elem_of_fmap. exists (self_name, self). split; [reflexivity | exact Hself]. }
    rewrite H in Hm. inversion Hm.
Qed.

Lemma validated_rules_single_match_witness :
  get_applicable_rule (snd <$> [("R-1", rule_low); ("R-2", rule_high)]) 1000
  = Some rule_high
  ∧ ∀ n r, (n, r) ∈ [("R-1", rule_low); ("R-2", rule_high)] → covers 1000 r →
           (n, r) = ("R-2", rule_high).
Proof.
  apply (validated_rules_single_match [("R-1", rule_low); ("R-2", rule_high)]
           1000 "R-2" rule_high).
  - compute_done.
  - intros n r Hin.
    repeat (apply elem_of_cons in Hin as [[= -> ->]|Hin]; [reflexivity|]).
    inversion Hin.
  - compute_done.
  - compute_done.
Defined.

End RuleTable.

(** ** Validated procurement flows *)

Section FlowTable.
Import Workflow Queries FlowDoc Scenario.

Lemma insert_sorted_perm {A} (le : A → A → bool) x l :
  insert_sorted le x l ≡ₚ x :: l.
Proof.
  induction l as [|y l IH]; simpl; [reflexivity|].
  destruct (le x y); [reflexivity|]. rewrite IH. apply Permutation_swap.
Qed.

Lemma sorted_by_perm {A} (le : A → A → bool) l : sorted_by le l ≡ₚ l.
Proof.
  unfold sorted_by. induction l as [|x l IH]; simpl; [reflexivity|].
  rewrite insert_sorted_perm, IH. reflexivity.
Qed.

(** Sorting records by a key and reading the keys is sorting the keys. *)
Lemma sorted_by_key {A} (key : A → Z) l :
  key <$> sorted_by (λ x y, bool_decide (key x ≤ key y)) l
  = sorted_by (λ x y, bool_decide (x ≤ y)) (key <$> l).
Proof.
  unfold sorted_by. induction l as [|x l IH]; [reflexivity|].
  rewrite fmap_cons. cbn [foldr]. rewrite <- IH.
  generalize (foldr (insert_sorted (λ x y, bool_decide (key x ≤ key y))) [] l).
  intros s. induction s as [|y s IHs]; [reflexivity|]. simpl.
  destruct (bool_decide (key x ≤ key y)); [reflexivity|].
  rewrite fmap_cons, IHs. reflexivity.
Qed.

Lemma Zle_total x y : bool_decide (x ≤ y) = true ∨ bool_decide (y ≤ x) = true.
Proof.
  destruct (Z.le_ge_cases x y); [left | right]; apply bool_decide_eq_true_2; assumption.
Qed.

Lemma Zle_trans x y z :
  bool_decide (x ≤ y) = true → bool_decide (y ≤ z) = true → bool_decide (x ≤ z) = true.
Proof.
  intros H1 H2. apply bool_decide_eq_true_1 in H1. apply bool_decide_eq_true_1 in H2.
  apply bool_decide_eq_true_2. lia.
Qed.

Lemma range_from_1_lookup n i :
  (i < n)%nat → range_from_1 n !! i = Some (Z.of_nat i + 1).
Proof.
  intros Hi. unfold range_from_1. rewrite list_lookup_fmap, lookup_seq_lt by exact Hi.
  simpl. f_equal. lia.
Qed.

Lemma range_from_1_sorted n :
  StronglySorted (λ a b, bool_decide (a ≤ b) = true) (range_from_1 n).
Proof.
  unfold range_from_1. generalize 1%nat. induction n as [|n IH]; intros s; simpl.
  - constructor.
  - constructor; [apply IH|]. apply Forall_forall. intros b Hb.
    apply list_elem_of_fmap in Hb as (k & -> & Hk). apply elem_of_seq in Hk.
    apply bool_decide_eq_true_2. lia.
Qed.

Lemma range_from_1_NoDup n : NoDup (range_from_1 n).
Proof.
  unfold range_from_1. apply NoDup_fmap; [intros x y H; lia | apply NoDup_seq].
Qed.

Lemma size_list_to_set_cons (x : Z) l :
  size (list_to_set (x :: l) : gset Z)
  = if decide (x ∈ l) then size (list_to_set l : gset Z)
    else S (size (list_to_set l : gset Z)).
Proof.
  rewrite list_to_set_cons. destruct (decide (x ∈ l)) as [Hx|Hx].
  - f_equal. apply subseteq_union_1_L. apply singleton_subseteq_l.
    apply elem_of_list_to_set. exact Hx.
  - rewrite size_union, size_singleton; [reflexivity|].
    apply disjoint_singleton_l. rewrite elem_of_list_to_set. exact Hx.
Qed.

Lemma size_list_to_set_le (l : list Z) :
  (size (list_to_set l : gset Z) ≤ length l)%nat.
Proof.
  induction l as [|x l IH]; [rewrite list_to_set_nil, size_empty; simpl; lia|].
  rewrite size_list_to_set_cons. simpl. destruct (decide (x ∈ l)); lia.
Qed.

Lemma size_list_to_set_NoDup (l : list Z) :
  length l = size (list_to_set l : gset Z) → NoDup l.
Proof.
  induction l as [|x l IH]; intros Hs; [constructor|].
  rewrite size_list_to_set_cons in Hs. simpl in Hs.
  pose proof (size_list_to_set_le l) as Hle.
  destruct (decide (x ∈ l)) as [Hx|Hx]; [lia|].
  apply NoDup_cons. split; [exact Hx | apply IH; lia].
Qed.

(** [validate_step_numbers] accepts exactly the flows whose step numbers
    are the numbers 1 to n, n the number of steps, in some order; with a
    repeated number it reports that the numbers are not unique. *)
Theorem validate_step_numbers_permutation self :
  (validate_step_numbers self = None
   ↔ step_no <$> flow_steps self ≡ₚ range_from_1 (length (flow_steps self)))
  ∧ (validate_step_numbers self = Some StepNumbersNotUnique
     ↔ ¬ NoDup (step_no <$> flow_steps self)).
Proof.
  unfold validate_step_numbers.
  set (l := step_no <$> flow_steps self).
  assert (Hlen : length l = length (flow_steps self)) by apply length_fmap.
  rewrite <- Hlen.
  set (sorted := sorted_by (λ x y, bool_decide (x ≤ y)) l).
  assert (Hperm : sorted ≡ₚ l) by apply sorted_by_perm.
  assert (Hslen : length sorted = length l) by (rewrite Hperm; reflexivity).
  assert (Hsize : length l = size (list_to_set l : gset Z) ↔ NoDup l).
  { split.
    - apply size_list_to_set_NoDup.
    - intros Hnd. symmetry. apply size_list_to_set. exact Hnd. }
  split.
  - case_bool_decide as Hu.
    + split; [discriminate|]. intros Hp. exfalso. apply Hu. apply Hsize.
      rewrite Hp. apply range_from_1_NoDup.
    + case_bool_decide as Hr.
      * split; [discriminate|]. intros Hp. exfalso. apply Hr. rewrite Hslen.
        apply (StronglySorted_unique_strong (λ a b, bool_decide (a ≤ b) = true)).
        -- intros a b _ _ H1 H2. apply bool_decide_eq_true_1 in H1.
           apply bool_decide_eq_true_1 in H2. lia.
        -- apply sorted_by_sorted; [apply Zle_total | apply Zle_trans].
        -- apply range_from_1_sorted.
        -- rewrite Hperm. exact Hp.
      * split; [|reflexivity]. intros _. rewrite <- Hslen, <- Hr. symmetry. exact Hperm.
  - case_bool_decide as Hu.
    + split; [|reflexivity]. intros _ Hnd. apply Hu. apply Hsize. exact Hnd.
    + split.
      * case_bool_decide; discriminate.
      * intros Hnd. exfalso. apply Hnd. apply Hsize. exact Hu.
Qed.

Lemma previous_step_from_split dt steps p rest : ∀ visited,
  steps = visited ++ rest →
  previous_step_from dt steps (length visited) rest = Some p →
  ∃ l1 c l2, steps = l1 ++ p :: c :: l2 ∧ doctype_name c = dt.
Proof.
  induction rest as [|step rest IH]; intros visited Hsteps H; [discriminate|].
  simpl in H.
  assert (Hrec : previous_step_from dt steps (S (length visited)) rest = Some p →
                 ∃ l1 c l2, steps = l1 ++ p :: c :: l2 ∧ doctype_name c = dt).
  { intros Hr. apply (IH (visited ++ [step])).
    - rewrite <- app_assoc. exact Hsteps.
    - rewrite length_app. simpl.
      replace (length visited + 1)%nat with (S (length visited)) by lia. exact Hr. }
  destruct (bool_decide_reflect (doctype_name step = dt)) as [Hs|Hs]; simpl in H;
    [|apply Hrec; exact H].
  case_bool_decide as Hi; [|apply Hrec; exact H].
  destruct visited as [|v visited _] using rev_ind; [simpl in Hi; lia|].
  rewrite Hsteps, length_app in H. simpl in H.
  replace (length visited + 1 - 1)%nat with (length visited + 0)%nat in H by lia.
  rewrite <- app_assoc in H. rewrite lookup_app_r in H by lia.
  replace (length visited + 0 - length visited)%nat with 0%nat in H by lia.
  simpl in H. injection H as ->.
  exists visited, step, rest. split; [|exact Hs].
  rewrite Hsteps, <- app_assoc. reflexivity.
Qed.

(** In a flow that passes [validate_step_numbers], the step at index [i]
    of the ordered list has step number [i + 1]; so the step
    [get_previous_step] returns for a doctype is numbered one below a step
    of that doctype, and the step [get_next_step] returns one above. *)
Theorem validated_flow_neighbours flow dt :
  validate_step_numbers flow = None →
  (∀ i s, get_flow_steps flow !! i = Some s → step_no s = Z.of_nat i + 1)
  ∧ (∀ p, get_previous_step dt flow = Some p →
       ∃ c, c ∈ get_flow_steps flow ∧ doctype_name c = dt
            ∧ step_no c = step_no p + 1)
  ∧ (∀ nx, get_next_step dt flow = Some nx →
       ∃ c, c ∈ get_flow_steps flow ∧ doctype_name c = dt
            ∧ step_no nx = step_no c + 1).
Proof.
  intros Hval.
  assert (Hidx : ∀ i s, get_flow_steps flow !! i = Some s → step_no s = Z.of_nat i + 1).
  { intros i s Hi.
    assert (Hkeys : step_no <$> get_flow_steps flow
                    = range_from_1 (length (flow_steps flow))).
    { unfold get_flow_steps. rewrite sorted_by_key.
      unfold validate_step_numbers in Hval.
      case_bool_decide; [discriminate|]. case_bool_decide as Hr; [discriminate|].
      rewrite Hr. f_equal.
      rewrite (Permutation_length (sorted_by_perm _ _)). apply length_fmap. }
    assert (Hs : (step_no <$> get_flow_steps flow) !! i = Some (step_no s))
      by (rewrite list_lookup_fmap, Hi; reflexivity).
    rewrite Hkeys in Hs.
    assert (Hlt : (i < length (flow_steps flow))%nat).
    { apply lookup_lt_Some in Hs. unfold range_from_1 in Hs.
      rewrite length_fmap, length_seq in Hs. exact Hs. }
    rewrite range_from_1_lookup in Hs by exact Hlt. congruence. }
  assert (Hpair : ∀ l1 a b l2, get_flow_steps flow = l1 ++ a :: b :: l2 →
                    step_no b = step_no a + 1).
  { intros l1 a b l2 Hs.
    rewrite (Hidx (length l1) a), (Hidx (S (length l1)) b); [lia | |].
    - rewrite Hs, lookup_app_r by lia.
      replace (S (length l1) - length l1)%nat with 1%nat by lia. reflexivity.
    - rewrite Hs, lookup_app_r by lia. rewrite Nat.sub_diag. reflexivity. }
  split; [exact Hidx|]. split.
  - intros p Hp. unfold get_previous_step in Hp.
    destruct (previous_step_from_split dt (get_flow_steps flow) p (get_flow_steps flow) []
                eq_refl Hp) as (l1 & c & l2 & Hs & Hc).
    exists c. split; [|split; [exact Hc | apply (Hpair l1 p c l2 Hs)]].
    rewrite Hs. apply elem_of_app. right. right. left.
  - intros nx Hnx. unfold get_next_step in Hnx.
    destruct (next_step_from_split dt (get_flow_steps flow) nx (get_flow_steps flow) []
                eq_refl Hnx) as (l1 & c & l2 & Hs & Hc).
    exists c. split; [|split; [exact Hc | apply (Hpair l1 c nx l2 Hs)]].
    rewrite Hs. apply elem_of_app. right. left.
Qed.

Lemma validated_flow_neighbours_witness :
  (∀ i s, get_flow_steps flow !! i = Some s → step_no s = Z.of_nat i + 1)
  ∧ (∀ p, get_previous_step SQ flow = Some p →
       ∃ c, c ∈ get_flow_steps flow ∧ doctype_name c = SQ
            ∧ step_no c = step_no p + 1)
  ∧ (∀ nx, get_next_step SQ flow = Some nx →
       ∃ c, c ∈ get_flow_steps flow ∧ doctype_name c = SQ
            ∧ step_no nx = step_no c + 1).
Proof.
  apply (validated_flow_neighbours flow SQ). reflexivity.
Defined.

(** In a table of flows with distinct names in which every flow passes
    [validate_only_one_active_flow], at most one flow is active, and
    [get_active_flow] returns it. *)
Theorem validated_flows_single_active table self_name self :
  NoDup (fst <$> table) →
  (∀ n f, (n, f) ∈ table → validate_only_one_active_flow table n f = None) →
  (self_name, self) ∈ table →
  is_active self = true →
  get_active_flow (snd <$> table) = Some self
  ∧ ∀ n f, (n, f) ∈ table → is_active f = true → (n, f) = (self_name, self).
Proof.
  intros Hnd Hval Hself Hact.
  assert (Huniq : ∀ n f, (n, f) ∈ table → is_active f = true →
                         (n, f) = (self_name, self)).
  { intros n f Hin Hf.
    destruct (decide (n = self_name)) as [->|Hne].
    - f_equal. apply (table_row_unique table self_name f self); assumption.
    - exfalso. specialize (Hval self_name self Hself).
      unfold validate_only_one_active_flow in Hval. rewrite Hact in Hval.
      destruct (List.find _ table) as [row|] eqn:Hfind; [discriminate|].
      apply list_elem_of_In in Hin.
      pose proof (find_none _ _ Hfind (n, f) Hin) as Hno. simpl in Hno.
      rewrite Hf, bool_decide_eq_true_2 in Hno by exact Hne. discriminate. }
  split; [|exact Huniq].
  unfold get_active_flow.
  destruct (List.find is_active (snd <$> table)) as [f|] eqn:Hfind.
  - apply find_some in Hfind as [Hin Hf].
    apply list_elem_of_In, list_elem_of_fmap in Hin as ([n f'] & -> & Hin).
    specialize (Huniq n f' Hin Hf). injection Huniq as _ ->. reflexivity.
  - exfalso.
    assert (Hin : In self (snd <$> table)).
    { apply list_elem_of_In, list_elem_of_fmap. exists (self_name, self).
      split; [reflexivity | exact Hself]. }
    pose proof (find_none _ _ Hfind self Hin) as Hno. congruence.
Qed.

Lemma validated_flows_single_active_witness :
  get_active_flow (snd <$> [("FLOW-1", flow); ("FLOW-2", mkFlow "Old" false [])])
  = Some flow
  ∧ ∀ n f, (n, f) ∈ [("FLOW-1", flow); ("FLOW-2", mkFlow "Old" false [])] →
           is_active f = true → (n, f) = ("FLOW-1", flow).
Proof.
  apply (validated_flows_single_active
           [("FLOW-1", flow); ("FLOW-2", mkFlow "Old" false [])] "FLOW-1" flow).
  - compute_done.
  - intros n f Hin.
    repeat (apply elem_of_cons in Hin as [[= -> ->]|Hin]; [reflexivity|]).
    inversion Hin.
  - left.
  - reflexivity.
Defined.

End FlowTable.

(** ** Documents made by make_procurement_document *)

Section MakeDocument.
Import Workflow Queries Make Scenario.

Lemma make_procurement_document_inv flows st source_name target doc :
  make_procurement_document flows st source_name target = inl doc →
  ∃ tdt sdt source,
    target = Some tdt ∧ tdt ≠ ""
    ∧ sdt ∈ PROCUREMENT_DOCTYPES ∧ tdt ∈ PROCUREMENT_DOCTYPES
    ∧ get_doc st sdt source_name = Some source
    ∧ docstatus source = 1
    ∧ items source ≠ []
    ∧ doc = new_target tdt sdt source_name (items source)
    ∧ (∀ active_flow next_step,
         get_active_flow flows = Some active_flow →
         get_next_step sdt active_flow = Some next_step →
         doctype_name next_step = tdt).
Proof.
  unfold make_procurement_document, get_items_field_name.
  remember PROCUREMENT_DOCTYPES as pd eqn:Hpd.
  destruct target as [tdt|]; [|discriminate]. simpl.
  case_bool_decide as Ht; [discriminate|]. simpl.
  destruct (List.find _ pd) as [sdt|] eqn:Hfind; [|discriminate].
  apply find_some in Hfind as [Hin _]. apply list_elem_of_In in Hin.
  destruct (get_doc st sdt source_name) as [source|] eqn:Hsrc; [|discriminate].
  case_bool_decide as Hst; [discriminate|].
  destruct (match get_active_flow flows with Some _ => _ | None => _ end)
    as [expected|] eqn:Hw; [discriminate|].
  rewrite (bool_decide_eq_true_2 _ Hin).
  case_bool_decide as Htin; [|discriminate].
  destruct (items source) as [|i l] eqn:Hitems; [discriminate|].
  intros [= <-]. subst pd. exists tdt, sdt, source.
  split; [reflexivity|]. split; [exact Ht|]. split; [exact Hin|].
  split; [exact Htin|]. split; [exact Hsrc|]. split; [exact Hst|].
  split; [rewrite Hitems; discriminate|]. split; [rewrite Hitems; reflexivity|].
  intros active_flow next_step Hflow Hnext. rewrite Hflow, Hnext in Hw.
  case_bool_decide as Hne; [discriminate | exact Hne].
Qed.

(** A document returned by [make_procurement_document] is a nameless local
    draft whose source is a stored, submitted document of a procurement
    doctype; its lines carry the item codes and quantities of the source's
    lines in order, and it passes [validate_items_against_source] on the
    same store. *)
Theorem made_document_matches_source flows st source_name target doc :
  make_procurement_document flows st source_name target = inl doc →
  source_name ≠ "" →
  ∃ source,
    get_doc st (default "" (procurement_source_doctype doc)) source_name = Some source
    ∧ procurement_source_name doc = Some source_name
    ∧ docstatus source = 1
    ∧ islocal doc = true ∧ docstatus doc = 0
    ∧ Some (doctype doc) = target
    ∧ (item_code <$> items doc) = (item_code <$> items source)
    ∧ (qty <$> items doc) = (qty <$> items source)
    ∧ validate_items_against_source st doc = Pass.
Proof.
  intros Hmake Hname.
  destruct (make_procurement_document_inv _ _ _ _ _ Hmake)
    as (tdt & sdt & source & -> & Ht & Hsdt & Htdt & Hsrc & Hst & Hne & -> & _).
  exists source. simpl.
  assert (Hc : (item_code <$> (copy_item <$> items source)) = (item_code <$> items source))
    by (rewrite <- list_fmap_compose; reflexivity).
  assert (Hq : (qty <$> (copy_item <$> items source)) = (qty <$> items source))
    by (rewrite <- list_fmap_compose; reflexivity).
  repeat split; try assumption; try reflexivity.
  unfold validate_items_against_source. simpl.
  rewrite (bool_decide_eq_false_2 (sdt = "")), (bool_decide_eq_false_2 _ Hname).
  - simpl. rewrite Hsrc. unfold get_items_field_name.
    rewrite (bool_decide_eq_true_2 _ Hsdt), (bool_decide_eq_true_2 _ Htdt).
    apply for_each_pass, Forall_forall. intros line Hin.
    rewrite bool_decide_eq_true_2; [reflexivity|].
    rewrite <- Hc. apply list_elem_of_fmap. exists line. split; [reflexivity | exact Hin].
  - intros ->. revert Hsdt. clear. intros H. vm_compute in H.
    repeat (apply elem_of_cons in H as [H|H]; [discriminate|]). inversion H.
Qed.

Lemma made_document_matches_source_witness :
  ∃ source,
    get_doc [pr1] (default "" (procurement_source_doctype
                                 (new_target RFQ PR "PR-1" (items pr1)))) "PR-1"
    = Some source
    ∧ procurement_source_name (new_target RFQ PR "PR-1" (items pr1)) = Some "PR-1"
    ∧ docstatus source = 1
    ∧ islocal (new_target RFQ PR "PR-1" (items pr1)) = true
    ∧ docstatus (new_target RFQ PR "PR-1" (items pr1)) = 0
    ∧ Some (doctype (new_target RFQ PR "PR-1" (items pr1))) = Some RFQ
    ∧ (item_code <$> items (new_target RFQ PR "PR-1" (items pr1)))
      = (item_code <$> items source)
    ∧ (qty <$> items (new_target RFQ PR "PR-1" (items pr1))) = (qty <$> items source)
    ∧ validate_items_against_source [pr1] (new_target RFQ PR "PR-1" (items pr1)) = Pass.
Proof.
  apply (made_document_matches_source flows [pr1] "PR-1" (Some RFQ)).
  - reflexivity.
  - discriminate.
Defined.

(** With an active flow whose steps have pairwise distinct doctypes and in
    which the source's doctype has a next step, a document returned by
    [make_procurement_document] passes [validate_step_order]. *)
Theorem made_document_passes_step_order flows st source_name target doc active_flow
    next_step :
  make_procurement_document flows st source_name target = inl doc →
  get_active_flow flows = Some active_flow →
  NoDup (doctype_name <$> get_flow_steps active_flow) →
  get_next_step (default "" (procurement_source_doctype doc)) active_flow
  = Some next_step →
  source_name ≠ "" →
  validate_step_order flows doc = Pass.
Proof.
  intros Hmake Hflow Hnd Hnext Hname.
  destruct (make_procurement_document_inv _ _ _ _ _ Hmake)
    as (tdt & sdt & source & -> & Ht & Hsdt & Htdt & Hsrc & Hst & Hne & -> & Hnx).
  simpl in Hnext. specialize (Hnx active_flow next_step Hflow Hnext).
  destruct (previous_step_of_next active_flow sdt next_step Hnd Hnext)
    as (Hprev & [cur Hcur] & Hcur_nx).
  rewrite Hnx in Hprev, Hcur_nx. rewrite Hcur in Hprev.
  unfold validate_step_order. rewrite Hflow. simpl doctype. rewrite Hcur_nx, Hprev.
  assert (Hc : doctype_name cur = sdt).
  { unfold get_current_step in Hcur. apply find_some in Hcur as [_ Hc].
    apply bool_decide_eq_true_1 in Hc. exact Hc. }
  destruct (requires_source next_step); [|reflexivity].
  simpl procurement_source_doctype. simpl procurement_source_name.
  destruct (negb (truthy (Some sdt)) && negb (truthy (Some source_name))); [reflexivity|].
  destruct (negb (eqb (truthy (Some sdt)) (truthy (Some source_name)))) eqn:He.
  - exfalso.
    assert (Hs1 : truthy (Some sdt) = true).
    { simpl. rewrite bool_decide_eq_false_2; [reflexivity|].
      intros ->. revert Hsdt. clear. intros H. vm_compute in H.
      repeat (apply elem_of_cons in H as [H|H]; [discriminate|]). inversion H. }
    assert (Hs2 : truthy (Some source_name) = true).
    { simpl. rewrite (bool_decide_eq_false_2 _ Hname). reflexivity. }
    rewrite Hs1, Hs2 in He. discriminate.
  - rewrite Hc. rewrite bool_decide_eq_false_2; [reflexivity|]. intros H. apply H. reflexivity.
Qed.

Lemma made_document_passes_step_order_witness :
  validate_step_order flows (new_target RFQ PR "PR-1" (items pr1)) = Pass.
Proof.
  apply (made_document_passes_step_order flows [pr1] "PR-1" (Some RFQ)
           (new_target RFQ PR "PR-1" (items pr1)) flow (mkStep 3 RFQ true)).
  - reflexivity.
  - reflexivity.
  - compute_done.
  - reflexivity.
  - discriminate.
Defined.

End MakeDocument.

(** * The forward walk of the link bar *)

Section ForwardWalk.
Import Host Workflow Links Descendants.

Lemma fold_opt_inv {A S : Type} (P : S → Prop) (body : S → A → option S) l :
  ∀ s, P s →
  (∀ s x, x ∈ l → P s → ∃ s', body s x = Some s' ∧ P s') →
  ∃ s', fold_opt body s l = Some s' ∧ P s'.
Proof.
  induction l as [|x l IH]; intros s Hs Hbody; cbn [fold_opt].
  - eauto.
  - destruct (Hbody s x) as (s1 & -> & Hs1); [left | done |].
    apply IH; [done |]. intros s2 y Hy. apply Hbody. by right.
Qed.

Lemma child_key_stored st cdt dt dn child_name :
  child_name ∈ get_all_children st cdt dt dn →
  doc_key cdt child_name ∈ store_keys st.
Proof.
  unfold get_all_children, store_keys. intros Hin.
  apply list_elem_of_fmap in Hin as (d & -> & Hd).
  apply list_elem_of_filter in Hd as [Hc Hd].
  apply elem_of_list_to_set, list_elem_of_fmap. exists d. split; [|done].
  destruct Hc as (<- & _). done.
Qed.

(** The walk returns as soon as the depth bound exceeds the number of
    keys not yet visited, and it only ever adds keys of the universe [U]. *)
Lemma collect_returns st (U : gset string) :
  store_keys st ⊆ U →
  ∀ fuel dt dn (s : WalkState),
    doc_key dt dn ∈ U → s.1 ⊆ U → (size (U ∖ s.1) < fuel)%nat →
    ∃ s', collect_all_descendants st fuel dt dn s = Some s'
          ∧ s.1 ⊆ s'.1 ∧ s'.1 ⊆ U.
Proof.
  intros HU. induction fuel as [|fuel IH]; intros dt dn [visited fbt] Hk Hv Hsz;
    [lia |].
  cbn [collect_all_descendants fst snd] in *.
  case_bool_decide as Hin; [exists (visited, fbt); done |].
  set (v1 := {[doc_key dt dn]} ∪ visited).
  assert (Hv1 : v1 ⊆ U) by set_solver.
  assert (Hsz1 : (size (U ∖ v1) < fuel)%nat).
  { assert (size (U ∖ v1) < size (U ∖ visited))%nat; [|lia].
    apply subset_size. split; [set_solver |].
    intros Hsub. specialize (Hsub (doc_key dt dn)). set_solver. }
  pose (P := λ s : WalkState, v1 ⊆ s.1 ∧ s.1 ⊆ U).
  assert (Hmono : ∀ s : WalkState, P s → (size (U ∖ s.1) < fuel)%nat).
  { intros s [Hs1 _]. eapply Nat.le_lt_trans; [|exact Hsz1].
    apply subseteq_size. set_solver. }
  destruct (fold_opt_inv P
    (λ s child_doctype,
       match get_all_children st child_doctype dt dn with
       | [] => Some s
       | child_docs =>
           fold_opt
             (λ s child_name,
                collect_all_descendants st fuel child_doctype child_name
                  (s.1, dict_add_absent child_doctype child_name s.2))
             (s.1, dict_ensure child_doctype s.2) child_docs
       end) PROCUREMENT_DOCTYPES (v1, fbt)) as (s' & Hs' & HP).
  - split; done.
  - intros s cdt _ HPs.
    destruct (get_all_children st cdt dt dn) as [|c cs] eqn:Hch; [eauto |].
    apply (fold_opt_inv P); [exact HPs |].
    intros s2 child_name Hc HP2.
    destruct (IH cdt child_name (s2.1, dict_add_absent cdt child_name s2.2))
      as (s3 & Hs3 & Hsub & HsU).
    + apply HU. apply (child_key_stored st cdt dt dn). by rewrite Hch.
    + apply HP2.
    + by apply Hmono.
    + exists s3. split; [done |]. destruct HP2 as [? ?]. split; [|done].
      cbn [fst] in Hsub. set_solver.
  - exists s'. split; [done |]. destruct HP as [? ?]. split; [|done].
    cbn [fst]. set_solver.
Qed.

Lemma size_add_le (k : string) (X : gset string) :
  (size ({[k]} ∪ X) ≤ S (size X))%nat.
Proof.
  rewrite size_union_alt, size_singleton.
  assert (size (X ∖ {[k]}) ≤ size X)%nat by (apply subseteq_size; set_solver).
  lia.
Qed.

Lemma size_store_keys st : (size (store_keys st) ≤ length st)%nat.
Proof.
  unfold store_keys. induction st as [|d st IH]; cbn [fmap list_fmap list_to_set].
  - by rewrite size_empty.
  - etrans; [apply size_add_le |]. cbn [length]. lia.
Qed.

(** ** What the forward walk lists *)

Lemma fold_opt_some_inv {A S : Type} (P : S → Prop) (body : S → A → option S) l :
  ∀ s s', (∀ s x s', x ∈ l → P s → body s x = Some s' → P s') →
  P s → fold_opt body s l = Some s' → P s'.
Proof.
  induction l as [|x l IH]; intros s s' Hbody Hs; cbn [fold_opt].
  - intros [= <-]. exact Hs.
  - destruct (body s x) as [s1|] eqn:Hx; [|discriminate].
    apply IH; [|eapply Hbody; [left | exact Hs | exact Hx]].
    intros s2 y s3 Hy. apply Hbody. by right.
Qed.

(** After a loop, what an iteration establishes for its element and later
    iterations keep holds of every element. *)
Lemma fold_opt_each {A S : Type} (Q : A → S → Prop) (body : S → A → option S) l :
  (∀ s x s', x ∈ l → body s x = Some s' → Q x s') →
  (∀ s y s' x, y ∈ l → body s y = Some s' → Q x s → Q x s') →
  ∀ s s', fold_opt body s l = Some s' → ∀ x, x ∈ l → Q x s'.
Proof.
  intros Hest Hkeep. induction l as [|y l IH]; intros s s' Hf x Hx;
    [inversion Hx|].
  cbn [fold_opt] in Hf. destruct (body s y) as [s1|] eqn:Hy; [|discriminate].
  assert (Hl : ∀ z, Q z s1 → Q z s').
  { intros z Hz. revert Hf.
    apply (fold_opt_some_inv (Q z)); [|exact Hz].
    intros s2 w s3 Hw HQ Hb. eapply Hkeep; [right; exact Hw | exact Hb | exact HQ]. }
  apply elem_of_cons in Hx as [->|Hx].
  - apply Hl. eapply Hest; [left | exact Hy].
  - eapply IH; [| | exact Hf | exact Hx].
    + intros s2 w s3 Hw. apply Hest. by right.
    + intros s2 w s3 z Hw. apply Hkeep. by right.
Qed.

Lemma dict_get_snoc_new k k' (d : list (string * list string)) :
  default [] (dict_get k' (d ++ [(k, [])])) = default [] (dict_get k' d).
Proof.
  unfold dict_get. induction d as [|[k0 vs] d IH]; simpl.
  - destruct (bool_decide (k = k')); reflexivity.
  - destruct (bool_decide (k0 = k')); [reflexivity | exact IH].
Qed.

Lemma listed_ensure k k' v d : listed k' v (dict_ensure k d) ↔ listed k' v d.
Proof.
  unfold listed, dict_ensure. case_bool_decide; [reflexivity|].
  rewrite dict_get_snoc_new. reflexivity.
Qed.

Lemma listed_add_absent k v k' v' d :
  listed k' v' (dict_add_absent k v d)
  ↔ listed k' v' d ∨ (k' = k ∧ v' = v).
Proof.
  unfold listed, dict_add_absent. case_bool_decide as Hin.
  - split; [by left | intros [H|[-> ->]]; [exact H | exact Hin]].
  - destruct (decide (k = k')) as [<-|Hne].
    + rewrite dict_get_append_eq. simpl. rewrite elem_of_app, list_elem_of_singleton.
      split; (intros [H|H]; [by left | right]); [by split | by destruct H].
    + rewrite dict_get_append_ne by exact Hne.
      split; [by left | intros [H|[H _]]; [exact H | congruence]].
Qed.

(** Whatever [forward_by_type] satisfies at the start, and keeps when the
    name of a child is added under the child's doctype, it satisfies when
    the walk returns. *)
Lemma collect_invariant st (P : list (string * list string) → Prop) :
  (∀ k d, P d → P (dict_ensure k d)) →
  (∀ cdt dt dn child_name d,
     child_name ∈ get_all_children st cdt dt dn →
     P d → P (dict_add_absent cdt child_name d)) →
  ∀ fuel dt dn (s s' : WalkState),
    collect_all_descendants st fuel dt dn s = Some s' → P s.2 → P s'.2.
Proof.
  intros Hens Hadd. induction fuel as [|fuel IH]; intros dt dn s s' Hc Hs;
    [discriminate|].
  cbn [collect_all_descendants] in Hc.
  case_bool_decide; [injection Hc as <-; exact Hs|].
  revert Hc. apply (fold_opt_some_inv (λ s, P s.2)); [|exact Hs].
  intros s1 cdt s2 _ Hs1.
  destruct (get_all_children st cdt dt dn) as [|c cs] eqn:Hch;
    [intros [= <-]; exact Hs1|].
  apply (fold_opt_some_inv (λ s, P s.2)); [|apply Hens; exact Hs1].
  intros s3 child_name s4 Hin Hs3 Hrec.
  apply (IH _ _ _ _ Hrec). cbn [snd].
  apply (Hadd cdt dt dn). { rewrite Hch. exact Hin. } exact Hs3.
Qed.

(** The walk never removes a name. *)
Lemma collect_keeps st fuel dt dn (s s' : WalkState) k v :
  collect_all_descendants st fuel dt dn s = Some s' →
  listed k v s.2 → listed k v s'.2.
Proof.
  apply (collect_invariant st (listed k v)).
  - intros k' d. apply listed_ensure.
  - intros cdt _ _ child_name d _ H. apply listed_add_absent. by left.
Qed.

(** When the walk of a document not yet visited returns, every direct
    child of the document is listed under its doctype. *)
Lemma collect_lists_children st fuel dt dn (s s' : WalkState) :
  doc_key dt dn ∉ s.1 →
  collect_all_descendants st fuel dt dn s = Some s' →
  ∀ cdt child_name,
    cdt ∈ PROCUREMENT_DOCTYPES →
    child_name ∈ get_all_children st cdt dt dn →
    listed cdt child_name s'.2.
Proof.
  intros Hnew Hc cdt child_name Hcdt Hchild.
  destruct fuel as [|fuel]; [discriminate|].
  cbn [collect_all_descendants] in Hc.
  rewrite bool_decide_eq_false_2 in Hc by exact Hnew.
  revert child_name Hchild.
  refine (fold_opt_each
            (λ cdt (s : WalkState), ∀ child_name,
               child_name ∈ get_all_children st cdt dt dn →
               listed cdt child_name s.2) _ _ _ _ _ _ Hc cdt Hcdt).
  - intros s1 x s2 _ Hbody child_name Hin.
    destruct (get_all_children st x dt dn) as [|c cs] eqn:Hch; [inversion Hin|].
    revert child_name Hin.
    refine (fold_opt_each (λ child_name (s : WalkState), listed x child_name s.2)
              _ _ _ _ _ _ Hbody).
    + intros s3 y s4 _ Hrec. apply (collect_keeps _ _ _ _ _ _ _ _ Hrec).
      cbn [snd]. apply listed_add_absent. by right.
    + intros s3 y s4 z _ Hrec Hz. apply (collect_keeps _ _ _ _ _ _ _ _ Hrec).
      cbn [snd]. apply listed_add_absent. by left.
  - intros s1 y s2 x _ Hbody Hx child_name Hin. specialize (Hx child_name Hin).
    destruct (get_all_children st y dt dn) as [|c cs] eqn:Hch;
      [injection Hbody as <-; exact Hx|].
    revert Hbody.
    apply (fold_opt_some_inv (λ s : WalkState, listed x child_name s.2)).
    + intros s3 w s4 _ Hs3 Hrec. apply (collect_keeps _ _ _ _ _ _ _ _ Hrec).
      cbn [snd]. apply listed_add_absent. by left.
    + cbn [snd]. apply listed_ensure. exact Hx.
Qed.

(** Started on any document of any store, [collect_all_descendants]
    returns a [forward_by_type] that lists under each procurement doctype
    every non-cancelled document of that doctype made from the start
    document, and lists a name under a doctype only for a stored,
    non-cancelled document of that doctype that has a source. *)
Theorem forward_links_of_children st dt dn :
  ∃ visited forward_by_type,
    collect_all_descendants st (length st + 2) dt dn (∅, [])
    = Some (visited, forward_by_type)
    ∧ (∀ d, d ∈ st → doctype d ∈ PROCUREMENT_DOCTYPES →
         child_of (doctype d) dt dn d →
         listed (doctype d) (name d) forward_by_type)
    ∧ (∀ k v, listed k v forward_by_type →
         ∃ d sdt sname, d ∈ st ∧ doctype d = k ∧ name d = v
                        ∧ child_of k sdt sname d).
Proof.
  destruct (collect_all_descendants st (length st + 2) dt dn (∅, []))
    as [[visited fbt]|] eqn:Hc.
  - exists visited, fbt. split; [reflexivity|]. split.
    + intros d Hd Hdt Hch.
      apply (collect_lists_children st (length st + 2) dt dn (∅, []) (visited, fbt));
        [set_solver | exact Hc | exact Hdt |].
      unfold get_all_children. apply list_elem_of_fmap. exists d. split; [reflexivity|].
      apply list_elem_of_filter. split; assumption.
    + refine (collect_invariant st
               (λ fbt, ∀ k v, listed k v fbt →
                  ∃ d sdt sname, d ∈ st ∧ doctype d = k ∧ name d = v
                                 ∧ child_of k sdt sname d)
               _ _ _ _ _ _ _ Hc _).
      * intros k d Hd k' v Hl. apply Hd. apply listed_ensure in Hl. exact Hl.
      * intros cdt dt' dn' child_name d Hin Hd k v Hl.
        apply listed_add_absent in Hl as [Hl|[-> ->]]; [apply Hd; exact Hl|].
        unfold get_all_children in Hin.
        apply list_elem_of_fmap in Hin as (x & -> & Hx).
        apply list_elem_of_filter in Hx as [Hco Hx].
        exists x, dt', dn'.
        split; [exact Hx|]. split; [apply Hco|]. split; [reflexivity | exact Hco].
      * intros k v Hl. unfold listed in Hl. simpl in Hl. inversion Hl.
  - exfalso.
    destruct (collect_returns st ({[doc_key dt dn]} ∪ store_keys st)
                ltac:(set_solver) (length st + 2)%nat dt dn (∅, []))
      as (s' & Hs & _); [set_solver | set_solver | | congruence].
    cbn [fst]. rewrite difference_empty_L.
    pose proof (size_add_le (doc_key dt dn) (store_keys st)).
    pose proof (size_store_keys st). lia.
Qed.

End ForwardWalk.
